(** * registry-monitor: the probe loop of [monitor.go]

    A shallow embedding of the monitor's probe loop.  The Go program keeps two
    package-level flags ([healthy], [status]) and four Prometheus metrics, and
    drives a Docker daemon through [go-dockerclient].  Here the process state
    is a record, the daemon is an abstract state [W] with one transition
    function per client call, and every function of the source becomes a
    computation in a small state-and-trace monad: it threads the process
    state and returns the list of observable events it performed (client
    calls with their outcome, assignments to the two flags, sleeps).
    Start-up ([main], [LoggingWriter]) is a function of what the libraries
    answer and yields the list of actions taken. *)

From Stdlib Require Import ZArith String Ascii List Bool Lia.
From stdpp Require Import base strings list gmap.
Import ListNotations.

Local Open Scope string_scope.
Local Open Scope list_scope.

(** ** Values exchanged with the Docker client *)

(** A Go [error] value that is not nil; the message is all the code logs. *)
Definition error := string.

(** A Go result pair [(value, err)]: [Ok v] when [err == nil]. *)
Inductive res (A : Type) : Type :=
| Ok (a : A)
| Err (e : error).
Arguments Ok {A} a.
Arguments Err {A} e.

(** [docker.APIContainers], [docker.APIImages], [docker.ImageHistory]:
    the fields the monitor reads. *)
Record APIContainers := { ContainerID : string; Names : list string }.
Record APIImages := { ImageID : string }.
Record ImageHistory := { HistoryID : string; Tags : list string }.

(** The external calls the monitor issues. *)
Inductive Call :=
| UrlParse | NewClient | ReadFile | LoadX509KeyPair
| Ping
| ListContainers | RemoveContainer (id : string)
| ListImages | RemoveImage (id : string)
| PullImage | ImageHistoryOf | CreateContainer | CommitContainer | PushImage.

(** The pipeline steps of one iteration, one per function of the source that
    issues calls: [newDockerClient] (with [buildTLSTransport]),
    [clearAllContainers], [clearAllImages], [pullTestImage], [deleteTopLayer],
    [createTagLayer], [pushTestImage]; and [verifyDockerClient]. *)
Inductive Step :=
| StConnect | StClearContainers | StClearImages | StPull
| StDeleteTopLayer | StCreateTagLayer | StPush | StVerify.

(** What an observer of one run sees, in order. *)
Inductive Event :=
| EvSleep (d : Z)                          (* time.Sleep(d) *)
| EvCall (s : Step) (c : Call) (ok : bool) (* a call made by step s; ok = (err == nil) *)
| EvHealthy (b : bool)                     (* healthy = b *)
| EvStatus (b : bool).                     (* status = b *)

(** The container runtime and the few other externals ([net/url], [crypto/tls],
    [io/ioutil], [time]) as transitions of an abstract world. *)
Class Runtime (W : Type) : Type := {
  url_Parse : string -> W -> res unit * W;
  docker_NewClient : string -> bool -> W -> res unit * W;
  ioutil_ReadFile : string -> W -> res unit * W;
  tls_LoadX509KeyPair : string -> string -> W -> res unit * W;
  client_Ping : W -> res unit * W;
  client_ListContainers : W -> res (list APIContainers) * W;
  client_RemoveContainer : string -> W -> res unit * W;
  client_ListImages : W -> res (list APIImages) * W;
  client_RemoveImage : string -> W -> res unit * W;
  client_PullImage : string -> W -> res unit * W;
  client_ImageHistory : string -> W -> res (list ImageHistory) * W;
  client_CreateContainer : string -> string -> list string -> W -> res unit * W;
  client_CommitContainer : string -> string -> string -> W -> res unit * W;
  client_PushImage : string -> string -> W -> res unit * W;
  time_Now : W -> Z * W;
  time_Format : Z -> string;
  time_Sleep : Z -> W -> W
}.

(** Command-line flags and the environment ([os.Getenv]), fixed for a run. *)
Record Config := {
  Getenv : string -> string;
  dockerUsername : string;
  dockerPassword : string;
  registryHost : string;
  repository : string;
  baseLayer : string
}.

(** ** Process state *)

(** The package-level variables of [monitor.go] next to the runtime's state.
    A counter is its count; a summary is the list of observed durations
    (nanoseconds; the conversion to float seconds is not modelled). *)
Record Proc (W : Type) : Type := mkProc {
  world : W;
  healthy : bool;
  status : bool;
  promSuccessMetric : nat;
  promFailureMetric : nat;
  promPullMetric : list Z;
  promPushMetric : list Z
}.
Arguments mkProc {W}.
Arguments world {W}.
Arguments healthy {W}.
Arguments status {W}.
Arguments promSuccessMetric {W}.
Arguments promFailureMetric {W}.
Arguments promPullMetric {W}.
Arguments promPushMetric {W}.

(** [var ( healthy bool; status bool )]: no initialiser, so both flags hold
    Go's zero value when the process starts; the metrics start empty. *)
Definition start {W} (w : W) : Proc W :=
  mkProc w false false 0 0 [] [].

(** ** The monad *)

Definition M (W A : Type) : Type := Proc W -> A * Proc W * list Event.

Definition ret {W A} (a : A) : M W A := fun p => (a, p, []).

Definition bind {W A B} (m : M W A) (f : A -> M W B) : M W B :=
  fun p =>
    let '(a, p1, l1) := m p in
    let '(b, p2, l2) := f a p1 in
    (b, p2, l1 ++ l2).

Notation "'let*' x ':=' m 'in' k" := (bind m (fun x => k))
  (at level 10, x name, m at level 100, k at level 200, only parsing).

Definition is_ok {A} (r : res A) : bool :=
  match r with Ok _ => true | Err _ => false end.

(** A call made by step [s]: runs on the world, recorded with its outcome. *)
Definition call {W A} (s : Step) (c : Call) (op : W -> res A * W)
    : M W (res A) :=
  fun p =>
    let '(r, w) := op (world p) in
    (r,
     mkProc w (healthy p) (status p) (promSuccessMetric p)
       (promFailureMetric p) (promPullMetric p) (promPushMetric p),
     [EvCall s c (is_ok r)]).

Definition set_healthy {W} (b : bool) : M W unit :=
  fun p =>
    (tt,
     mkProc (world p) b (status p) (promSuccessMetric p)
       (promFailureMetric p) (promPullMetric p) (promPushMetric p),
     [EvHealthy b]).

Definition set_status {W} (b : bool) : M W unit :=
  fun p =>
    (tt,
     mkProc (world p) (healthy p) b (promSuccessMetric p)
       (promFailureMetric p) (promPullMetric p) (promPushMetric p),
     [EvStatus b]).

Definition get_healthy {W} : M W bool := fun p => (healthy p, p, []).

(** [time.Now()], read off the world's clock. *)
Definition now {W} `{Runtime W} : M W Z :=
  fun p =>
    let '(t, w) := time_Now (world p) in
    (t,
     mkProc w (healthy p) (status p) (promSuccessMetric p)
       (promFailureMetric p) (promPullMetric p) (promPushMetric p),
     []).

Definition sleep {W} `{Runtime W} (d : Z) : M W unit :=
  fun p =>
    (tt,
     mkProc (time_Sleep d (world p)) (healthy p) (status p)
       (promSuccessMetric p) (promFailureMetric p) (promPullMetric p)
       (promPushMetric p),
     [EvSleep d]).

(** [m.Inc()] on the success and failure counters.  Both vectors are declared
    with no label, so [GetMetricWithLabelValues()] cannot fail and the
    [panic(err)] branches are dead. *)
Definition inc_success {W} : M W unit :=
  fun p =>
    (tt,
     mkProc (world p) (healthy p) (status p) (S (promSuccessMetric p))
       (promFailureMetric p) (promPullMetric p) (promPushMetric p),
     []).

Definition inc_failure {W} : M W unit :=
  fun p =>
    (tt,
     mkProc (world p) (healthy p) (status p) (promSuccessMetric p)
       (S (promFailureMetric p)) (promPullMetric p) (promPushMetric p),
     []).

(** [promPullMetric.Observe(d)] and [promPushMetric.Observe(d)]. *)
Definition observe_pull {W} (d : Z) : M W unit :=
  fun p =>
    (tt,
     mkProc (world p) (healthy p) (status p) (promSuccessMetric p)
       (promFailureMetric p) (promPullMetric p ++ [d]) (promPushMetric p),
     []).

Definition observe_push {W} (d : Z) : M W unit :=
  fun p =>
    (tt,
     mkProc (world p) (healthy p) (status p) (promSuccessMetric p)
       (promFailureMetric p) (promPullMetric p) (promPushMetric p ++ [d]),
     []).

(** ** Pure helpers *)

(** [time.Second] and [time.Minute] in nanoseconds ([time.Duration]). *)
Definition Second : Z := 1000000000.
Definition Minute : Z := 60 * Second.

(** [strings.ToLower], on bytes: A..Z become a..z and every other byte is
    kept.  The program only compares the result with the word true. *)
Definition ascii_ToLower (c : ascii) : ascii :=
  let n := N_of_ascii c in
  if ((65 <=? n) && (n <=? 90))%N then ascii_of_N (n + 32) else c.

Fixpoint strings_ToLower (s : string) : string :=
  match s with
  | EmptyString => EmptyString
  | String c s' => String (ascii_ToLower c) (strings_ToLower s')
  end.

Fixpoint stringInSlice (value : string) (l : list string) : bool :=
  match l with
  | [] => false
  | current :: l' =>
      if String.eqb current value then true else stringInSlice value l'
  end.

(** [_, toSkip := skipImages[id]]: whether the key is present. *)
Definition toSkip (skipImages : gmap string bool) (id : string) : bool :=
  match skipImages !! id with
  | Some _ => true
  | None => false
  end.

(** The first inner loop of [clearAllImages]. *)
Definition imagesFound (skipImages : gmap string bool)
    (images : list APIImages) : bool :=
  fold_left
    (fun found image => if toSkip skipImages (ImageID image) then found else true)
    images false.

(** [fmt.Fprintf(w, "%t", b)]. *)
Definition fmt_t (b : bool) : string := if b then "true" else "false".

(** How one pass through the body of [mainLoop]'s [for] ends. *)
Inductive Control :=
| Return                    (* the goroutine returns: no further iteration *)
| Continue (duration : Z)   (* next iteration, after sleeping [duration] *)
| Diverge.                  (* image cleanup was still looping *)

(** Where [mainLoop] stands after a bounded number of iterations. *)
Inductive LoopState :=
| Returned
| Running (firstLoop : bool) (duration : Z)
| Stuck.

(** ** The functions of [monitor.go] *)

Section Monitor.
Context {W : Type} {RT : Runtime W} (cfg : Config).

(** [strings.ToLower(os.Getenv("UNDER_DOCKER")) == "true"]. *)
Definition under_docker : bool :=
  String.eqb (strings_ToLower (Getenv cfg "UNDER_DOCKER")) "true".

(** [buildTLSTransport(basePath)]: the CA file is read, then the key pair is
    loaded; either error is returned as it is. *)
Definition buildTLSTransport (basePath : string) : M W (res unit) :=
  let* r := call StConnect ReadFile (ioutil_ReadFile (basePath +:+ "/ca.pem")) in
  match r with
  | Err err => ret (Err err)
  | Ok _ =>
      let* r := call StConnect LoadX509KeyPair
                  (tls_LoadX509KeyPair (basePath +:+ "/cert.pem")
                     (basePath +:+ "/key.pem")) in
      match r with
      | Err err => ret (Err err)
      | Ok _ => ret (Ok tt)
      end
  end.

(** [newDockerClient(dockerHost)]. *)
Definition newDockerClient (dockerHost : string) : M W (res unit) :=
  let* r := call StConnect UrlParse (url_Parse dockerHost) in
  match r with
  | Err err => ret (Err err)
  | Ok _ =>
      let https := negb (String.eqb (Getenv cfg "DOCKER_CERT_PATH") "") in
      let* r := call StConnect NewClient (docker_NewClient dockerHost https) in
      match r with
      | Err err => ret (Err err)
      | Ok _ =>
          if https then
            let* r := buildTLSTransport (Getenv cfg "DOCKER_CERT_PATH") in
            match r with
            | Err err => ret (Err err)
            | Ok _ => ret (Ok tt)
            end
          else ret (Ok tt)
      end
  end.

(** [verifyDockerClient]. *)
Definition verifyDockerClient : M W bool :=
  let* r := call StVerify Ping client_Ping in
  match r with
  | Err _ => let* _ := set_healthy false in ret false
  | Ok _ => ret true
  end.

(** The [for _, container := range containers] loop of [clearAllContainers],
    up to and including the final [return healthy]. *)
Fixpoint clearAllContainers_range (containers : list APIContainers) : M W bool :=
  match containers with
  | [] => get_healthy
  | container :: containers' =>
      if stringInSlice "monitor" (Names container) then
        clearAllContainers_range containers'
      else
        let* r := call StClearContainers (RemoveContainer (ContainerID container))
                    (client_RemoveContainer (ContainerID container)) in
        match r with
        | Err _ => let* _ := set_healthy false in ret false
        | Ok _ => clearAllContainers_range containers'
        end
  end.

(** [clearAllContainers]. *)
Definition clearAllContainers : M W bool :=
  let* r := call StClearContainers ListContainers client_ListContainers in
  match r with
  | Err _ => let* _ := set_healthy false in ret false
  | Ok containers => clearAllContainers_range containers
  end.

(** The second inner loop of [clearAllImages], over [images[:1]].  [None] is
    the [return false] of the fatal branch; otherwise the loop hands back the
    skip map and [removedImages]. *)
Fixpoint removeImages (images : list APIImages)
    (skipImages : gmap string bool) (removedImages : bool)
    : M W (option (gmap string bool * bool)) :=
  match images with
  | [] => ret (Some (skipImages, removedImages))
  | image :: images' =>
      if toSkip skipImages (ImageID image) then
        removeImages images' skipImages removedImages
      else
        let* r := call StClearImages (RemoveImage (ImageID image))
                    (client_RemoveImage (ImageID image)) in
        match r with
        | Err _ =>
            if negb under_docker then
              let* _ := set_healthy false in ret None
            else
              removeImages images' (<[ImageID image := true]> skipImages)
                removedImages
        | Ok _ => removeImages images' skipImages true
        end
  end.

(** The outer [for { ... }] of [clearAllImages]; [fuel] bounds the number of
    passes, and [None] says the loop was still running when it ran out.  The
    skip map is returned with the result so that it can be inspected; the
    source drops it when the function returns. *)
Fixpoint clearAllImages_loop (fuel : nat) (skipImages : gmap string bool)
    : M W (option (bool * gmap string bool)) :=
  match fuel with
  | O => ret None
  | S fuel' =>
      let* r := call StClearImages ListImages client_ListImages in
      match r with
      | Err _ => let* _ := set_healthy false in ret (Some (false, skipImages))
      | Ok images =>
          if negb (imagesFound skipImages images) then
            let* h := get_healthy in ret (Some (h, skipImages))
          else
            let* r := removeImages (take 1 images) skipImages false in
            match r with
            | None => ret (Some (false, skipImages))
            | Some (skipImages', removedImages) =>
                if negb removedImages then ret (Some (true, skipImages'))
                else clearAllImages_loop fuel' skipImages'
            end
      end
  end.

(** [clearAllImages]: [skipImages := map[string]bool{}], then the loop. *)
Definition clearAllImages (fuel : nat) : M W (option bool) :=
  let* r := clearAllImages_loop fuel ∅ in
  ret (fst <$> r).

(** [pullTestImage]. *)
Definition pullTestImage : M W bool :=
  let* r := call StPull PullImage (client_PullImage (repository cfg)) in
  match r with
  | Err _ => let* _ := set_status false in ret false
  | Ok _ => ret true
  end.

(** The [for _, image := range imageHistory] loop of [deleteTopLayer], up to
    and including the final [return healthy]. *)
Fixpoint deleteTopLayer_range (imageHistory : list ImageHistory) : M W bool :=
  match imageHistory with
  | [] => get_healthy
  | image :: imageHistory' =>
      if stringInSlice "latest" (Tags image) then
        let* r := call StDeleteTopLayer (RemoveImage (HistoryID image))
                    (client_RemoveImage (HistoryID image)) in
        match r with
        | Err _ => let* _ := set_healthy false in ret false
        | Ok _ => get_healthy
        end
      else deleteTopLayer_range imageHistory'
  end.

(** [deleteTopLayer]. *)
Definition deleteTopLayer : M W bool :=
  let* r := call StDeleteTopLayer ImageHistoryOf (client_ImageHistory (repository cfg)) in
  match r with
  | Err _ => let* _ := set_healthy false in ret false
  | Ok imageHistory => deleteTopLayer_range imageHistory
  end.

(** [createTagLayer]. *)
Definition createTagLayer : M W bool :=
  let* t := now in
  let timestamp := time_Format t in
  let* r := call StCreateTagLayer CreateContainer
              (client_CreateContainer "updatedcontainer" (baseLayer cfg)
                 ["sh"; "echo"; String "034" timestamp +:+ String "034" " > foo"]) in
  match r with
  | Err _ => let* _ := set_healthy false in ret false
  | Ok _ =>
      let* r := call StCreateTagLayer CommitContainer
                  (client_CommitContainer "updatedcontainer" (repository cfg)
                     ("Updated at " +:+ timestamp)) in
      match r with
      | Err _ => let* _ := set_healthy false in ret false
      | Ok _ => get_healthy
      end
  end.

(** [pushTestImage]. *)
Definition pushTestImage : M W bool :=
  let* r := call StPush PushImage
              (client_PushImage (repository cfg) (registryHost cfg)) in
  match r with
  | Err _ => let* _ := set_status false in ret false
  | Ok _ => let* _ := set_status true in ret true
  end.

(** [dockerHost] in [runMonitor]. *)
Definition dockerHost : string :=
  if String.eqb (Getenv cfg "DOCKER_HOST") "" then "unix:///var/run/docker.sock"
  else Getenv cfg "DOCKER_HOST".

(** One pass through the body of the [for] in [mainLoop], entered with the
    current values of [firstLoop] and [duration]. *)
Definition iteration (fuel : nat) (firstLoop : bool) (duration : Z)
    : M W Control :=
  let* _ := (if negb firstLoop then sleep duration else ret tt) in
  let* _ := set_status true in
  let* r := newDockerClient dockerHost in
  match r with
  | Err _ => let* _ := set_healthy false in ret Return
  | Ok _ =>
      let* ok := (if negb under_docker then clearAllContainers else ret true) in
      if negb ok then ret Return
      else
        let* ok := clearAllImages fuel in
        match ok with
        | None => ret Diverge
        | Some false => ret Return
        | Some true =>
            let* pullStartTime := now in
            let* ok := pullTestImage in
            if negb ok then
              let* _ := inc_failure in ret (Continue (30 * Second))
            else
              let* t := now in
              let* _ := observe_pull (t - pullStartTime) in
              let* ok := deleteTopLayer in
              if negb ok then ret Return
              else
                let* ok := createTagLayer in
                if negb ok then ret Return
                else
                  let* pushStartTime := now in
                  let* ok := pushTestImage in
                  if negb ok then
                    let* _ := inc_failure in ret (Continue (30 * Second))
                  else
                    let* t := now in
                    let* _ := observe_push (t - pushStartTime) in
                    let* _ := inc_success in
                    ret (Continue (2 * Minute))
        end
  end.

(** [n] iterations of [mainLoop]'s [for], or fewer when it returns. *)
Fixpoint mainLoop_from (n fuel : nat) (firstLoop : bool) (duration : Z)
    : M W LoopState :=
  match n with
  | O => ret (Running firstLoop duration)
  | S n' =>
      let* c := iteration fuel firstLoop duration in
      match c with
      | Return => ret Returned
      | Diverge => ret Stuck
      | Continue duration' => mainLoop_from n' fuel false duration'
      end
  end.

(** [mainLoop]: [firstLoop := true], [duration := 2 * time.Minute]. *)
Definition mainLoop (n fuel : nat) : M W LoopState :=
  mainLoop_from n fuel true (2 * Minute).

(** [healthHandler] and [statusHandler]: the status code and the body. *)
Definition healthHandler (p : Proc W) : Z * string :=
  (if negb (healthy p) then 503%Z else 200%Z, fmt_t (healthy p)).

Definition statusHandler (p : Proc W) : Z * string :=
  (if negb (status p) then 400%Z else 200%Z, fmt_t (status p)).

End Monitor.

(** ** Reading a run *)

Definition result {W A} (r : A * Proc W * list Event) : A := fst (fst r).
Definition final {W A} (r : A * Proc W * list Event) : Proc W := snd (fst r).
Definition trace {W A} (r : A * Proc W * list Event) : list Event := snd r.

#[global] Instance Step_eq_dec : EqDecision Step.
Proof. solve_decision. Defined.

(** Step [s] issued a call. *)
Definition is_call_of (s : Step) (e : Event) : bool :=
  match e with
  | EvCall s' _ _ => bool_decide (s' = s)
  | _ => false
  end.
Definition invoked (s : Step) (evs : list Event) : bool :=
  existsb (is_call_of s) evs.

(** A call of step [s] returned an error. *)
Definition is_failure_of (s : Step) (e : Event) : bool :=
  match e with
  | EvCall s' _ false => bool_decide (s' = s)
  | _ => false
  end.
Definition failed (s : Step) (evs : list Event) : bool :=
  existsb (is_failure_of s) evs.

(** Within image cleanup: the enumeration failed, a removal failed. *)
Definition is_list_failure (e : Event) : bool :=
  match e with
  | EvCall StClearImages ListImages false => true
  | _ => false
  end.
Definition is_remove_failure (e : Event) : bool :=
  match e with
  | EvCall StClearImages (RemoveImage _) false => true
  | _ => false
  end.
Definition failed_list (evs : list Event) : bool := existsb is_list_failure evs.
Definition failed_remove (evs : list Event) : bool :=
  existsb is_remove_failure evs.

(** Enumeration passes of image cleanup, and removals that succeeded. *)
Definition is_pass (e : Event) : bool :=
  match e with
  | EvCall StClearImages ListImages _ => true
  | _ => false
  end.
Definition is_removal (e : Event) : bool :=
  match e with
  | EvCall StClearImages (RemoveImage _) true => true
  | _ => false
  end.
Definition passes (evs : list Event) : nat := length (List.filter is_pass evs).
Definition removals (evs : list Event) : nat := length (List.filter is_removal evs).

(** Removal attempts on image [id] made by image cleanup. *)
Definition is_attempt_on (id : string) (e : Event) : bool :=
  match e with
  | EvCall StClearImages (RemoveImage id') _ => String.eqb id' id
  | _ => false
  end.
Definition attempts_on (id : string) (evs : list Event) : nat :=
  length (List.filter (is_attempt_on id) evs).

(** Assignments to the flags. *)
Definition is_healthy_write (e : Event) : bool :=
  match e with EvHealthy _ => true | _ => false end.
Definition is_healthy_set (e : Event) : bool :=
  match e with EvHealthy true => true | _ => false end.
Definition is_status_write (e : Event) : bool :=
  match e with EvStatus _ => true | _ => false end.
Definition is_status_clear (e : Event) : bool :=
  match e with EvStatus false => true | _ => false end.
Definition healthy_written (evs : list Event) : bool :=
  existsb is_healthy_write evs.
Definition healthy_set (evs : list Event) : bool :=
  existsb is_healthy_set evs.
Definition status_written (evs : list Event) : bool :=
  existsb is_status_write evs.
Definition status_cleared (evs : list Event) : bool :=
  existsb is_status_clear evs.

(** The value of [healthy] after each event of a trace, from value [h]. *)
Fixpoint healthy_history (h : bool) (evs : list Event) : list bool :=
  match evs with
  | [] => []
  | e :: evs' =>
      let h' := match e with EvHealthy b => b | _ => h end in
      h' :: healthy_history h' evs'
  end.

(** The failures the code treats as fatal: it clears [healthy] and returns.
    Image enumeration is fatal in every mode, image removal only outside the
    constrained one. *)
Definition fatal_failure (constrained : bool) (evs : list Event) : bool :=
  failed StConnect evs || failed StClearContainers evs
  || failed_list evs || (negb constrained && failed_remove evs)
  || failed StDeleteTopLayer evs || failed StCreateTagLayer evs.

(** The failures that the specification lists as fatal: the same, except
    that all of image cleanup counts, and only outside the constrained
    mode. *)
Definition listed_fatal_failure (constrained : bool) (evs : list Event)
    : bool :=
  failed StConnect evs || failed StClearContainers evs
  || (negb constrained && failed StClearImages evs)
  || failed StDeleteTopLayer evs || failed StCreateTagLayer evs.

(** Some call returned an error. *)
Definition is_any_failure (e : Event) : bool :=
  match e with
  | EvCall _ _ false => true
  | _ => false
  end.
Definition any_failed (evs : list Event) : bool := existsb is_any_failure evs.

(** ** A scripted runtime

    A small concrete container runtime: it holds containers, images (in
    listing order) and an image history, refuses to remove the images in
    [sim_stuck], and fails every call listed in [sim_failing]. *)

Record Sim := mkSim {
  sim_containers : list APIContainers;
  sim_images : list string;
  sim_stuck : list string;
  sim_history : list ImageHistory;
  sim_failing : list Call;
  sim_clock : Z
}.

#[global] Instance Call_eq_dec : EqDecision Call.
Proof. solve_decision. Defined.

Definition sim_fails (c : Call) (w : Sim) : bool :=
  bool_decide (c ∈ sim_failing w).

Definition sim_simple (c : Call) (w : Sim) : res unit * Sim :=
  if sim_fails c w then (Err "scripted failure", w) else (Ok tt, w).

Definition sim_ListContainers (w : Sim) : res (list APIContainers) * Sim :=
  if sim_fails ListContainers w then (Err "scripted failure", w)
  else (Ok (sim_containers w), w).

Definition sim_RemoveContainer (id : string) (w : Sim) : res unit * Sim :=
  if sim_fails (RemoveContainer id) w then (Err "scripted failure", w)
  else
    (Ok tt,
     mkSim (List.filter (fun c => negb (String.eqb (ContainerID c) id)) (sim_containers w))
       (sim_images w) (sim_stuck w) (sim_history w) (sim_failing w) (sim_clock w)).

Definition sim_ListImages (w : Sim) : res (list APIImages) * Sim :=
  if sim_fails ListImages w then (Err "scripted failure", w)
  else (Ok (map Build_APIImages (sim_images w)), w).

Definition sim_RemoveImage (id : string) (w : Sim) : res unit * Sim :=
  if sim_fails (RemoveImage id) w then (Err "scripted failure", w)
  else if bool_decide (id ∈ sim_stuck w) then (Err "image is in use", w)
  else if negb (bool_decide (id ∈ sim_images w)) then (Err "no such image", w)
  else
    (Ok tt,
     mkSim (sim_containers w)
       (List.filter (fun i => negb (String.eqb i id)) (sim_images w))
       (sim_stuck w) (sim_history w) (sim_failing w) (sim_clock w)).

(** A pull brings in the layers of the test repository that are missing. *)
Definition sim_PullImage (w : Sim) : res unit * Sim :=
  if sim_fails PullImage w then (Err "scripted failure", w)
  else
    (Ok tt,
     mkSim (sim_containers w)
       (sim_images w ++
          List.filter (fun i => negb (bool_decide (i ∈ sim_images w)))
            (map HistoryID (sim_history w)))
       (sim_stuck w) (sim_history w) (sim_failing w) (sim_clock w)).

Definition sim_ImageHistory (w : Sim) : res (list ImageHistory) * Sim :=
  if sim_fails ImageHistoryOf w then (Err "scripted failure", w)
  else (Ok (sim_history w), w).

Definition sim_Now (w : Sim) : Z * Sim :=
  (sim_clock w,
   mkSim (sim_containers w) (sim_images w) (sim_stuck w) (sim_history w)
     (sim_failing w) (sim_clock w + Second)).

Definition sim_Sleep (d : Z) (w : Sim) : Sim :=
  mkSim (sim_containers w) (sim_images w) (sim_stuck w) (sim_history w)
    (sim_failing w) (sim_clock w + d).

#[global] Instance sim_runtime : Runtime Sim := {
  url_Parse _ := sim_simple UrlParse;
  docker_NewClient _ _ := sim_simple NewClient;
  ioutil_ReadFile _ := sim_simple ReadFile;
  tls_LoadX509KeyPair _ _ := sim_simple LoadX509KeyPair;
  client_Ping := sim_simple Ping;
  client_ListContainers := sim_ListContainers;
  client_RemoveContainer := sim_RemoveContainer;
  client_ListImages := sim_ListImages;
  client_RemoveImage := sim_RemoveImage;
  client_PullImage _ := sim_PullImage;
  client_ImageHistory _ := sim_ImageHistory;
  client_CreateContainer _ _ _ := sim_simple CreateContainer;
  client_CommitContainer _ _ _ := sim_simple CommitContainer;
  client_PushImage _ _ := sim_simple PushImage;
  time_Now := sim_Now;
  time_Format _ := "2006-01-02 15:04:05 -0700";
  time_Sleep := sim_Sleep
}.

(** A configuration with every required flag set; [under] is the value of
    the environment variable [UNDER_DOCKER]. *)
Definition sim_config (under : string) : Config :=
  {| Getenv := fun name => if String.eqb name "UNDER_DOCKER" then under else "";
     dockerUsername := "user";
     dockerPassword := "secret";
     registryHost := "quay.io";
     repository := "quay.io/example/monitor-test";
     baseLayer := "base" |}.

(** A runtime with the given images, of which [stuck] cannot be removed, the
    given history for the test repository, and the given failing calls. *)
Definition sim_world (images stuck : list string) (history : list ImageHistory)
    (failing : list Call) : Sim :=
  mkSim [] images stuck history failing 0.

(** The two modes, and two histories of the test repository: one whose top
    layer carries the tag, one where no layer does. *)
Definition constrained : Config := sim_config "true".
Definition unconstrained : Config := sim_config "".

Definition tagged_history : list ImageHistory :=
  [ {| HistoryID := "top"; Tags := ["latest"] |};
    {| HistoryID := "base"; Tags := [] |} ].
Definition untagged_history : list ImageHistory :=
  [ {| HistoryID := "layer1"; Tags := ["v1"] |} ].

(** The size of the scripted runtime: the number of images it holds. *)
Definition sim_size (w : Sim) : nat := length (sim_images w).

(** ** Contracts

    What each step does to the process and which events it may produce; the
    properties below are proved step by step against these. *)

(** The process state apart from the runtime's: flags and metrics. *)
Definition same_metrics {W} (p p' : Proc W) : Prop :=
  promSuccessMetric p' = promSuccessMetric p
  /\ promFailureMetric p' = promFailureMetric p
  /\ promPullMetric p' = promPullMetric p
  /\ promPushMetric p' = promPushMetric p.

(** [q] differs from [p] in the runtime's state only. *)
Definition unchanged {W} (p q : Proc W) : Prop :=
  healthy q = healthy p /\ status q = status p /\ same_metrics p q.

(** [q] is [p] after [healthy = false]. *)
Definition cleared {W} (p q : Proc W) : Prop :=
  healthy q = false /\ status q = status p /\ same_metrics p q
  /\ world q = world p.

(** A fatal-class step [s] only issues its own calls and only ever stores
    false in [healthy]; a transactional step only issues its own calls and
    writes [status]. *)
Definition only (s : Step) (e : Event) : Prop :=
  match e with
  | EvCall s' _ _ => s' = s
  | EvHealthy b => b = false
  | _ => False
  end.

Definition only_tx (s : Step) (e : Event) : Prop :=
  match e with
  | EvCall s' _ _ => s' = s
  | EvStatus _ => True
  | _ => False
  end.

(** What a fatal-class step [s] does to the process: it issues its own calls,
    leaves [status] and the metrics alone, clears [healthy] exactly when one
    of its calls fails, and reports the value of [healthy]. *)
Definition fatal_step {W} (s : Step) (p : Proc W) (b : bool) (p' : Proc W)
    (evs : list Event) : Prop :=
  Forall (only s) evs
  /\ same_metrics p p'
  /\ status p' = status p
  /\ healthy p' = healthy p && negb (failed s evs)
  /\ b = healthy p'.

(** What a transactional step [s] (pull, push) does: it issues its own call,
    leaves [healthy] and the metrics alone, and clears [status] exactly when
    the call fails. *)
Definition tx_step {W} (s : Step) (p : Proc W) (b : bool) (p' : Proc W)
    (evs : list Event) : Prop :=
  Forall (only_tx s) evs
  /\ same_metrics p p'
  /\ healthy p' = healthy p
  /\ b = negb (failed s evs)
  /\ invoked s evs = true
  /\ status_cleared evs = failed s evs
  /\ (b = false -> status p' = false).

(** Connecting issues only calls of its own and touches neither flag. *)
Definition connect_step {W} (p : Proc W) (r : res unit) (p' : Proc W)
    (evs : list Event) : Prop :=
  Forall (only StConnect) evs
  /\ same_metrics p p'
  /\ status p' = status p
  /\ healthy p' = healthy p
  /\ is_ok r = negb (failed StConnect evs)
  /\ healthy_written evs = false.

(** What the loop relies on when it tests the result of a fatal-class step:
    a failure clears [healthy] and is reported as false. *)
Definition gate {W} (failure : list Event -> bool) (s : Step) (p : Proc W)
    (b : bool) (p' : Proc W) (evs : list Event) : Prop :=
  Forall (only s) evs
  /\ same_metrics p p'
  /\ status p' = status p
  /\ healthy p' = healthy p && negb (failure evs)
  /\ (b = true -> failure evs = false)
  /\ (b = false -> healthy p' = false).

(** The events that precede [status = true]: the sleep, except first time. *)
Definition sleep_prefix (firstLoop : bool) (duration : Z) : list Event :=
  if firstLoop then [] else [EvSleep duration].

Section CleanupRuns.
Context {W : Type} {RT : Runtime W} (cfg : Config).

(** A fatal failure of image cleanup: the enumeration fails, or a removal
    fails outside the constrained mode. *)
Definition images_fatal (evs : list Event) : bool :=
  failed_list evs || (negb (under_docker cfg) && failed_remove evs).

(** The runs of [clearAllImages_loop], one constructor per way through a pass
    of the [for]. *)
Inductive Cleanup : nat -> gmap string bool -> Proc W ->
    option (bool * gmap string bool) -> Proc W -> list Event -> Prop :=
| Cl_out_of_fuel skip p :
    Cleanup 0 skip p None p []
| Cl_list_error fuel skip p q p' err :
    client_ListImages (world p) = (Err err, world q) ->
    unchanged p q -> cleared q p' ->
    Cleanup (S fuel) skip p (Some (false, skip)) p'
      [EvCall StClearImages ListImages false; EvHealthy false]
| Cl_nothing_found fuel skip p q images :
    client_ListImages (world p) = (Ok images, world q) ->
    unchanged p q ->
    imagesFound skip images = false ->
    Cleanup (S fuel) skip p (Some (healthy p, skip)) q
      [EvCall StClearImages ListImages true]
| Cl_first_skipped fuel skip p q image images :
    client_ListImages (world p) = (Ok (image :: images), world q) ->
    unchanged p q ->
    imagesFound skip (image :: images) = true ->
    toSkip skip (ImageID image) = true ->
    Cleanup (S fuel) skip p (Some (true, skip)) q
      [EvCall StClearImages ListImages true]
| Cl_removed fuel skip p q q' image images u r p' evs :
    client_ListImages (world p) = (Ok (image :: images), world q) ->
    unchanged p q ->
    toSkip skip (ImageID image) = false ->
    client_RemoveImage (ImageID image) (world q) = (Ok u, world q') ->
    unchanged q q' ->
    Cleanup fuel skip q' r p' evs ->
    Cleanup (S fuel) skip p r p'
      (EvCall StClearImages ListImages true
       :: EvCall StClearImages (RemoveImage (ImageID image)) true :: evs)
| Cl_refused_constrained fuel skip p q q' image images err :
    client_ListImages (world p) = (Ok (image :: images), world q) ->
    unchanged p q ->
    toSkip skip (ImageID image) = false ->
    client_RemoveImage (ImageID image) (world q) = (Err err, world q') ->
    unchanged q q' ->
    under_docker cfg = true ->
    Cleanup (S fuel) skip p (Some (true, <[ImageID image := true]> skip)) q'
      [EvCall StClearImages ListImages true;
       EvCall StClearImages (RemoveImage (ImageID image)) false]
| Cl_refused_fatal fuel skip p q q' p' image images err :
    client_ListImages (world p) = (Ok (image :: images), world q) ->
    unchanged p q ->
    toSkip skip (ImageID image) = false ->
    client_RemoveImage (ImageID image) (world q) = (Err err, world q') ->
    unchanged q q' -> cleared q' p' ->
    under_docker cfg = false ->
    Cleanup (S fuel) skip p (Some (false, skip)) p'
      [EvCall StClearImages ListImages true;
       EvCall StClearImages (RemoveImage (ImageID image)) false;
       EvHealthy false].

End CleanupRuns.

(** ** More ways to read a run *)

(** A removal of container [id] by [clearAllContainers], and a call made
    while connecting that succeeded. *)
Definition rm_container (ok : bool) (id : string) : Event :=
  EvCall StClearContainers (RemoveContainer id) ok.
Definition connect_ok (c : Call) : Event := EvCall StConnect c true.

(** The containers whose removal [clearAllContainers] attempted, in order. *)
Definition container_removal (e : Event) : option string :=
  match e with
  | EvCall StClearContainers (RemoveContainer id) _ => Some id
  | _ => None
  end.
Definition container_removals (evs : list Event) : list string :=
  omap container_removal evs.

(** The durations slept, in order. *)
Definition sleep_of (e : Event) : option Z :=
  match e with
  | EvSleep d => Some d
  | _ => None
  end.
Definition sleeps (evs : list Event) : list Z := omap sleep_of evs.

(** Counting events: tests started (each iteration parses the host once),
    pulls and pushes by outcome. *)
Definition count (f : Event -> bool) (evs : list Event) : nat :=
  length (List.filter f evs).

Definition is_test_start (e : Event) : bool :=
  match e with
  | EvCall StConnect UrlParse _ => true
  | _ => false
  end.
Definition is_pull (ok : bool) (e : Event) : bool :=
  match e with
  | EvCall StPull PullImage ok' => Bool.eqb ok' ok
  | _ => false
  end.
Definition is_push (ok : bool) (e : Event) : bool :=
  match e with
  | EvCall StPush PushImage ok' => Bool.eqb ok' ok
  | _ => false
  end.

(** ** Start-up *)

(** The [Write] method of [LoggingWriter]: the line handed to [log.Infof],
    and the pair [(n, err)] that is returned. *)
Definition LoggingWriter_Write (p : list Byte.byte)
    : string * (nat * option error) :=
  let s := string_of_list_byte p in
  (s, (String.length s, None)).

(** The collectors of [prometheusMetrics], in the order of the slice. *)
Inductive Collector :=
| SuccessCounter | FailureCounter | PullSummary | PushSummary.

Definition prometheusMetrics : list Collector :=
  [SuccessCounter; FailureCounter; PullSummary; PushSummary].

(** What the libraries answer to [main]: [flag], [flagutil], [logrus],
    [prometheus] and [net/http].  [http.ListenAndServe] only returns with an
    error; [None] stands for a server that runs for ever. *)
Record Startup := {
  flag_Parse : res unit;
  flagutil_SetFlagsFromEnv : res unit;
  log_ParseLevel : string -> res string;
  prometheus_Register : Collector -> res unit;
  http_ListenAndServe : string -> option error
}.

(** What [main] does, in order.  [log_Fatal] is a call of [log.Fatalln],
    [log.Fatalf] or [log.Fatal], which logs and ends the process. *)
Inductive Action :=
| Fprintln_Stderr (msg : string)
| os_Exit (code : Z)
| log_SetLevel (lvl : string)
| log_Fatal (msg : string)
| Registered (metric : Collector)
| http_Handle (pattern : string)
| log_Infoln (msg : string)
| go_mainLoop
| Serving (addr : string).

(** The [for _, metric := range prometheusMetrics] loop of [main]; the
    boolean says whether the loop ran to its end. *)
Fixpoint register_metrics (env : Startup) (metrics : list Collector)
    : list Action * bool :=
  match metrics with
  | [] => ([], true)
  | metric :: metrics' =>
      match prometheus_Register env metric with
      | Err err => ([log_Fatal ("Failed to register metric: " +:+ err)], false)
      | Ok _ =>
          let '(l, ok) := register_metrics env metrics' in
          (Registered metric :: l, ok)
      end
  end.

(** [main], with the values of the flags after parsing: the five of
    [Config], [-listen] and [-loglevel].  [runMonitor] starts the probe loop
    as a goroutine and returns. *)
Definition main (env : Startup) (cfg : Config) (listen level : string)
    : list Action :=
  match flag_Parse env with
  | Err err => [Fprintln_Stderr err; os_Exit 1]
  | Ok _ =>
  match flagutil_SetFlagsFromEnv env with
  | Err err => [Fprintln_Stderr err; os_Exit 1]
  | Ok _ =>
  match log_ParseLevel env level with
  | Err err => [Fprintln_Stderr err; os_Exit 1]
  | Ok lvl =>
      log_SetLevel lvl ::
      if String.eqb (dockerUsername cfg) "" then
        [log_Fatal "Missing username flag"]
      else if String.eqb (dockerPassword cfg) "" then
        [log_Fatal "Missing password flag"]
      else if String.eqb (registryHost cfg) "" then
        [log_Fatal "Missing registryHost flag"]
      else if String.eqb (repository cfg) "" then
        [log_Fatal "Missing repository flag"]
      else if String.eqb (baseLayer cfg) "" then
        [log_Fatal "Missing baseLayerId flag"]
      else
        let '(registered, ok) := register_metrics env prometheusMetrics in
        registered ++
        if negb ok then []
        else
          [ http_Handle "/metrics"; http_Handle "/health";
            http_Handle "/status"; log_Infoln ("Listening on " +:+ listen);
            go_mainLoop; Serving listen ]
          ++ match http_ListenAndServe env listen with
             | Some err => [log_Fatal err]
             | None => []
             end
  end end end.

(** Libraries that answer [main] without an error, and a server that runs
    for ever; and flags of which the password is missing. *)
Definition startup_ok : Startup :=
  {| flag_Parse := Ok tt;
     flagutil_SetFlagsFromEnv := Ok tt;
     log_ParseLevel := fun level => Ok level;
     prometheus_Register := fun _ => Ok tt;
     http_ListenAndServe := fun _ => None |}.

Definition no_password : Config :=
  {| Getenv := fun _ => "";
     dockerUsername := "user";
     dockerPassword := "";
     registryHost := "quay.io";
     repository := "quay.io/example/monitor-test";
     baseLayer := "" |}.

(** * Properties *)

(** ** Running the monad *)

Lemma bind_inv {W A B} (m : M W A) (k : A -> M W B) p b p2 l :
  bind m k p = (b, p2, l) ->
  exists a p1 l1 l2, m p = (a, p1, l1) /\ k a p1 = (b, p2, l2) /\ l = l1 ++ l2.
Proof.
  unfold bind. destruct (m p) as [[a p1] l1] eqn:Em.
  destruct (k a p1) as [[b' p2'] l2] eqn:Ek.
  intros [= <- <- <-]. exists a, p1, l1, l2. auto.
Qed.

Lemma ret_inv {W A} (a : A) (p : Proc W) b p' l :
  ret a p = (b, p', l) -> b = a /\ p' = p /\ l = [].
Proof. unfold ret. intros [= <- <- <-]. auto. Qed.

Lemma same_metrics_refl {W} (p : Proc W) : same_metrics p p.
Proof. unfold same_metrics. auto. Qed.

Lemma same_metrics_trans {W} (p q r : Proc W) :
  same_metrics p q -> same_metrics q r -> same_metrics p r.
Proof. unfold same_metrics. intuition congruence. Qed.

Lemma call_inv {W A} s c (op : W -> res A * W) p r p' l :
  call s c op p = (r, p', l) ->
  l = [EvCall s c (is_ok r)] /\ op (world p) = (r, world p')
  /\ healthy p' = healthy p /\ status p' = status p /\ same_metrics p p'.
Proof.
  unfold call. destruct (op (world p)) as [r' w'] eqn:E.
  intros [= <- <- <-]. cbn. unfold same_metrics. auto 10.
Qed.

Lemma set_healthy_inv {W} b (p : Proc W) u p' l :
  set_healthy b p = (u, p', l) ->
  l = [EvHealthy b] /\ healthy p' = b /\ status p' = status p
  /\ world p' = world p /\ same_metrics p p'.
Proof. unfold set_healthy. intros [= <- <- <-]. cbn. unfold same_metrics. auto 10. Qed.

Lemma set_status_inv {W} b (p : Proc W) u p' l :
  set_status b p = (u, p', l) ->
  l = [EvStatus b] /\ status p' = b /\ healthy p' = healthy p
  /\ world p' = world p /\ same_metrics p p'.
Proof. unfold set_status. intros [= <- <- <-]. cbn. unfold same_metrics. auto 10. Qed.

Lemma get_healthy_inv {W} (p : Proc W) h p' l :
  get_healthy p = (h, p', l) -> h = healthy p /\ p' = p /\ l = [].
Proof. unfold get_healthy. intros [= <- <- <-]. auto. Qed.

Lemma now_inv {W} `{Runtime W} (p : Proc W) t p' l :
  now p = (t, p', l) ->
  l = [] /\ healthy p' = healthy p /\ status p' = status p /\ same_metrics p p'.
Proof.
  unfold now. destruct (time_Now (world p)) as [t' w'].
  intros [= <- <- <-]. cbn. unfold same_metrics. auto 10.
Qed.

Lemma sleep_inv {W} `{Runtime W} d (p : Proc W) u p' l :
  sleep d p = (u, p', l) ->
  l = [EvSleep d] /\ healthy p' = healthy p /\ status p' = status p
  /\ same_metrics p p'.
Proof. unfold sleep. intros [= <- <- <-]. cbn. unfold same_metrics. auto 10. Qed.

Lemma inc_success_inv {W} (p : Proc W) u p' l :
  inc_success p = (u, p', l) ->
  l = [] /\ healthy p' = healthy p /\ status p' = status p
  /\ promSuccessMetric p' = S (promSuccessMetric p)
  /\ promFailureMetric p' = promFailureMetric p
  /\ promPullMetric p' = promPullMetric p
  /\ promPushMetric p' = promPushMetric p.
Proof. unfold inc_success. intros [= <- <- <-]. cbn. auto 10. Qed.

Lemma inc_failure_inv {W} (p : Proc W) u p' l :
  inc_failure p = (u, p', l) ->
  l = [] /\ healthy p' = healthy p /\ status p' = status p
  /\ promSuccessMetric p' = promSuccessMetric p
  /\ promFailureMetric p' = S (promFailureMetric p)
  /\ promPullMetric p' = promPullMetric p
  /\ promPushMetric p' = promPushMetric p.
Proof. unfold inc_failure. intros [= <- <- <-]. cbn. auto 10. Qed.

Lemma observe_pull_inv {W} d (p : Proc W) u p' l :
  observe_pull d p = (u, p', l) ->
  l = [] /\ healthy p' = healthy p /\ status p' = status p
  /\ promSuccessMetric p' = promSuccessMetric p
  /\ promFailureMetric p' = promFailureMetric p
  /\ promPullMetric p' = promPullMetric p ++ [d]
  /\ promPushMetric p' = promPushMetric p.
Proof. unfold observe_pull. intros [= <- <- <-]. cbn. auto 10. Qed.

Lemma observe_push_inv {W} d (p : Proc W) u p' l :
  observe_push d p = (u, p', l) ->
  l = [] /\ healthy p' = healthy p /\ status p' = status p
  /\ promSuccessMetric p' = promSuccessMetric p
  /\ promFailureMetric p' = promFailureMetric p
  /\ promPullMetric p' = promPullMetric p
  /\ promPushMetric p' = promPushMetric p ++ [d].
Proof. unfold observe_push. intros [= <- <- <-]. cbn. auto 10. Qed.

(** Symbolic execution of one run: split binds, then read each primitive. *)
Ltac run_bind H :=
  let a := fresh "a" in
  let q := fresh "q" in
  let l1 := fresh "l" in
  let l2 := fresh "l" in
  let H1 := fresh "R" in
  apply bind_inv in H; destruct H as (a & q & l1 & l2 & H1 & H & ->).

Ltac run_prim H :=
  lazymatch type of H with
  | ret _ _ = _ => apply ret_inv in H; destruct H as (-> & -> & ->)
  | get_healthy _ = _ =>
      apply get_healthy_inv in H; destruct H as (-> & -> & ->)
  | set_healthy _ _ = _ =>
      apply set_healthy_inv in H;
      let Hh := fresh "Hh" in let Hs := fresh "Hs" in
      let Hw := fresh "Hw" in let Hm := fresh "Hm" in
      destruct H as (-> & Hh & Hs & Hw & Hm)
  | set_status _ _ = _ =>
      apply set_status_inv in H;
      let Hs := fresh "Hs" in let Hh := fresh "Hh" in
      let Hw := fresh "Hw" in let Hm := fresh "Hm" in
      destruct H as (-> & Hs & Hh & Hw & Hm)
  | call _ _ _ _ = _ =>
      apply call_inv in H;
      let Hc := fresh "Hc" in let Hh := fresh "Hh" in
      let Hs := fresh "Hs" in let Hm := fresh "Hm" in
      destruct H as (-> & Hc & Hh & Hs & Hm)
  | now _ = _ =>
      apply now_inv in H;
      let Hh := fresh "Hh" in let Hs := fresh "Hs" in let Hm := fresh "Hm" in
      destruct H as (-> & Hh & Hs & Hm)
  | sleep _ _ = _ =>
      apply sleep_inv in H;
      let Hh := fresh "Hh" in let Hs := fresh "Hs" in let Hm := fresh "Hm" in
      destruct H as (-> & Hh & Hs & Hm)
  | inc_success _ = _ => apply inc_success_inv in H; destruct H as (-> & H)
  | inc_failure _ = _ => apply inc_failure_inv in H; destruct H as (-> & H)
  | observe_pull _ _ = _ => apply observe_pull_inv in H; destruct H as (-> & H)
  | observe_push _ _ = _ => apply observe_push_inv in H; destruct H as (-> & H)
  end.

(** Closes the bookkeeping goals left once a run has been read. *)
Ltac close_step :=
  cbn; unfold same_metrics in *;
  repeat match goal with H : _ /\ _ |- _ => destruct H end;
  repeat split; intros;
  first [ congruence | done | by repeat constructor ].

(** ** Events a step may produce *)

Lemma existsb_none {A} (f : A -> bool) (P : A -> Prop) l :
  Forall P l -> (forall x, P x -> f x = false) -> existsb f l = false.
Proof.
  induction 1 as [|x l Hx _ IH]; intros Hf; cbn; [reflexivity|].
  rewrite (Hf x Hx). auto.
Qed.

Lemma only_failed s s' evs :
  Forall (only s) evs -> s' <> s -> failed s' evs = false.
Proof.
  intros H Hne. apply (existsb_none _ _ _ H).
  intros [| s0 c [|] | |]; cbn; try tauto; intros ->; by rewrite bool_decide_eq_false.
Qed.

Lemma only_invoked s s' evs :
  Forall (only s) evs -> s' <> s -> invoked s' evs = false.
Proof.
  intros H Hne. apply (existsb_none _ _ _ H).
  intros [| s0 c ok | |]; cbn; try tauto; intros ->; by rewrite bool_decide_eq_false.
Qed.

Lemma only_status_written s evs :
  Forall (only s) evs -> status_written evs = false.
Proof. intros H. apply (existsb_none _ _ _ H). by intros [| | |]. Qed.

Lemma only_status_cleared s evs :
  Forall (only s) evs -> status_cleared evs = false.
Proof. intros H. apply (existsb_none _ _ _ H). by intros [| | |[|]]. Qed.

Lemma only_tx_failed s s' evs :
  Forall (only_tx s) evs -> s' <> s -> failed s' evs = false.
Proof.
  intros H Hne. apply (existsb_none _ _ _ H).
  intros [| s0 c [|] | |]; cbn; try tauto; intros ->; by rewrite bool_decide_eq_false.
Qed.

Lemma only_tx_invoked s s' evs :
  Forall (only_tx s) evs -> s' <> s -> invoked s' evs = false.
Proof.
  intros H Hne. apply (existsb_none _ _ _ H).
  intros [| s0 c ok | |]; cbn; try tauto; intros ->; by rewrite bool_decide_eq_false.
Qed.

Lemma only_list_failure s evs :
  Forall (only s) evs -> s <> StClearImages -> failed_list evs = false.
Proof.
  intros H Hne. apply (existsb_none _ _ _ H).
  intros [| s0 c ok | |]; cbn; try tauto; intros ->. by destruct s.
Qed.

Lemma only_remove_failure s evs :
  Forall (only s) evs -> s <> StClearImages -> failed_remove evs = false.
Proof.
  intros H Hne. apply (existsb_none _ _ _ H).
  intros [| s0 c ok | |]; cbn; try tauto; intros ->. by destruct s.
Qed.

Lemma only_tx_list_failure s evs :
  Forall (only_tx s) evs -> s <> StClearImages -> failed_list evs = false.
Proof.
  intros H Hne. apply (existsb_none _ _ _ H).
  intros [| s0 c ok | |]; cbn; try tauto; intros ->. by destruct s.
Qed.

Lemma only_tx_remove_failure s evs :
  Forall (only_tx s) evs -> s <> StClearImages -> failed_remove evs = false.
Proof.
  intros H Hne. apply (existsb_none _ _ _ H).
  intros [| s0 c ok | |]; cbn; try tauto; intros ->. by destruct s.
Qed.

Lemma failed_app s l1 l2 : failed s (l1 ++ l2) = failed s l1 || failed s l2.
Proof. apply existsb_app. Qed.

Lemma invoked_app s l1 l2 : invoked s (l1 ++ l2) = invoked s l1 || invoked s l2.
Proof. apply existsb_app. Qed.

Lemma failed_list_app l1 l2 :
  failed_list (l1 ++ l2) = failed_list l1 || failed_list l2.
Proof. apply existsb_app. Qed.

Lemma failed_remove_app l1 l2 :
  failed_remove (l1 ++ l2) = failed_remove l1 || failed_remove l2.
Proof. apply existsb_app. Qed.

Lemma status_cleared_app l1 l2 :
  status_cleared (l1 ++ l2) = status_cleared l1 || status_cleared l2.
Proof. apply existsb_app. Qed.

Lemma healthy_set_app l1 l2 :
  healthy_set (l1 ++ l2) = healthy_set l1 || healthy_set l2.
Proof. apply existsb_app. Qed.

Lemma only_healthy_set s evs : Forall (only s) evs -> healthy_set evs = false.
Proof. intros H. apply (existsb_none _ _ _ H). by intros [| | [|] |]. Qed.

Lemma only_tx_healthy_set s evs :
  Forall (only_tx s) evs -> healthy_set evs = false.
Proof. intros H. apply (existsb_none _ _ _ H). by intros [| | |]. Qed.

(** ** Counting events *)

Lemma count_app f l1 l2 : count f (l1 ++ l2) = count f l1 + count f l2.
Proof. unfold count. by rewrite List.filter_app, length_app. Qed.

Lemma count_cons f e l : count f (e :: l) = (if f e then 1 else 0) + count f l.
Proof. unfold count. cbn. by destruct (f e). Qed.

Lemma count_none {P : Event -> Prop} f l :
  Forall P l -> (forall e, P e -> f e = false) -> count f l = 0.
Proof.
  unfold count. induction 1 as [|e l He _ IH]; intros Hf; cbn; [reflexivity|].
  rewrite (Hf e He). auto.
Qed.

Lemma count_sleep_prefix f firstLoop d :
  f (EvSleep d) = false -> count f (sleep_prefix firstLoop d) = 0.
Proof.
  intros Hf. destruct firstLoop; unfold count; cbn; [|rewrite Hf]; reflexivity.
Qed.

Lemma only_count_pull s ok l :
  Forall (only s) l -> s <> StPull -> count (is_pull ok) l = 0.
Proof.
  intros Ho Hs. apply (count_none _ _ Ho).
  intros [| s' c b | |]; cbn; try tauto. intros ->. by destruct s.
Qed.

Lemma only_count_push s ok l :
  Forall (only s) l -> s <> StPush -> count (is_push ok) l = 0.
Proof.
  intros Ho Hs. apply (count_none _ _ Ho).
  intros [| s' c b | |]; cbn; try tauto. intros ->. by destruct s.
Qed.

Lemma only_count_start s l :
  Forall (only s) l -> s <> StConnect -> count is_test_start l = 0.
Proof.
  intros Ho Hs. apply (count_none _ _ Ho).
  intros [| s' c b | |]; cbn; try tauto. intros ->. by destruct s.
Qed.

Lemma sleeps_app l1 l2 : sleeps (l1 ++ l2) = sleeps l1 ++ sleeps l2.
Proof. unfold sleeps. apply omap_app. Qed.

Lemma sleeps_status b l : sleeps (EvStatus b :: l) = sleeps l.
Proof. reflexivity. Qed.

Lemma only_sleeps s l : Forall (only s) l -> sleeps l = [].
Proof.
  unfold sleeps. induction 1 as [|e l He _ IH]; cbn; [reflexivity|].
  destruct e; cbn in *; try tauto; assumption.
Qed.

Lemma only_tx_sleeps s l : Forall (only_tx s) l -> sleeps l = [].
Proof.
  unfold sleeps. induction 1 as [|e l He _ IH]; cbn; [reflexivity|].
  destruct e; cbn in *; try tauto; assumption.
Qed.

(** No container is removed where container cleanup issued no call. *)
Lemma not_invoked_no_removals evs :
  invoked StClearContainers evs = false -> container_removals evs = [].
Proof.
  unfold container_removals.
  induction evs as [|e evs IH]; cbn; [reflexivity|].
  intros H. apply orb_false_iff in H as [He Hevs].
  destruct e as [| [] [] ok | |]; cbn in *; try discriminate; auto.
Qed.

(** The first inner loop of [clearAllImages] looks for a listed image that
    is not in the skip map. *)
Lemma imagesFound_existsb skip images found :
  fold_left
    (fun found image => if toSkip skip (ImageID image) then found else true)
    images found
  = found || existsb (fun image => negb (toSkip skip (ImageID image))) images.
Proof.
  revert found. induction images as [|image images IH]; intros found; cbn.
  - by rewrite orb_false_r.
  - rewrite IH. destruct (toSkip skip (ImageID image)), found; reflexivity.
Qed.

Lemma imagesFound_empty images :
  imagesFound ∅ images = false -> images = [].
Proof.
  unfold imagesFound. rewrite imagesFound_existsb.
  destruct images as [|image images]; [reflexivity|].
  cbn. unfold toSkip at 1. by rewrite lookup_empty.
Qed.

(** [strings.ToLower] yields a lower-case letter for that letter and for its
    capital only. *)
Lemma ascii_ToLower_inv (x : ascii) :
  let n := N_of_ascii x in
  ascii_ToLower x = x
  \/ (N_of_ascii (ascii_ToLower x) = n + 32 /\ 65 <= n <= 90)%N.
Proof.
  cbv zeta. unfold ascii_ToLower.
  destruct ((65 <=? N_of_ascii x) && (N_of_ascii x <=? 90))%N eqn:E; [|by left].
  right. apply andb_true_iff in E as [E1 E2].
  apply N.leb_le in E1, E2. split; [|lia].
  rewrite N_ascii_embedding; [reflexivity|lia].
Qed.

Lemma ascii_ToLower_letter (c l u : ascii) :
  (97 <= N_of_ascii l <= 122)%N ->
  N_of_ascii u = (N_of_ascii l - 32)%N ->
  ascii_ToLower c = l <-> c = l \/ c = u.
Proof.
  intros Hl Hu. split.
  - intros H. destruct (ascii_ToLower_inv c) as [Hc|[Hc Hr]]; cbv zeta in *.
    + left. congruence.
    + right. rewrite H in Hc.
      rewrite <- (ascii_N_embedding c), <- (ascii_N_embedding u).
      f_equal. lia.
  - intros [->| ->].
    + unfold ascii_ToLower.
      destruct ((65 <=? N_of_ascii l) && (N_of_ascii l <=? 90))%N eqn:E;
        [|reflexivity].
      apply andb_true_iff in E as [E1 E2]. apply N.leb_le in E1, E2. lia.
    + unfold ascii_ToLower.
      destruct ((65 <=? N_of_ascii u) && (N_of_ascii u <=? 90))%N eqn:E.
      * rewrite <- (ascii_N_embedding l). f_equal. lia.
      * apply andb_false_iff in E as [E|E]; apply N.leb_gt in E; lia.
Qed.

Lemma string_of_list_byte_length (p : list Byte.byte) :
  String.length (string_of_list_byte p) = length p.
Proof.
  induction p as [|b p IH]; [reflexivity|].
  change (S (String.length (string_of_list_byte p)) = S (length p)).
  by rewrite IH.
Qed.

(** ** The steps, one by one *)

Section Steps.
Context {W : Type} {RT : Runtime W} (cfg : Config).

Lemma fatal_step_call_ok s c (p q : Proc W) b p' evs :
  healthy q = healthy p -> status q = status p -> same_metrics p q ->
  fatal_step s q b p' evs ->
  fatal_step s p b p' ([EvCall s c true] ++ evs).
Proof.
  intros Hh Hs Hm (Ho & Hm' & Hs' & Hh' & ->).
  repeat split.
  - cbn. constructor; [reflexivity | assumption].
  - apply (same_metrics_trans _ _ _ Hm Hm').
  - apply (same_metrics_trans _ _ _ Hm Hm').
  - apply (same_metrics_trans _ _ _ Hm Hm').
  - apply (same_metrics_trans _ _ _ Hm Hm').
  - congruence.
  - rewrite failed_app. cbn. rewrite Hh'. congruence.
Qed.

Lemma fatal_step_call_err s c (p q q' : Proc W) :
  healthy q' = false -> status q' = status q -> same_metrics q q' ->
  status q = status p -> same_metrics p q ->
  fatal_step s p false q' ([EvCall s c false] ++ [EvHealthy false] ++ []).
Proof.
  intros Hh Hs Hm Hs' Hm'.
  repeat split; try apply (same_metrics_trans _ _ _ Hm' Hm).
  - cbn. repeat constructor.
  - congruence.
  - cbn. rewrite bool_decide_eq_true_2 by reflexivity. cbn.
    rewrite andb_false_r. assumption.
  - congruence.
Qed.

Lemma fatal_step_done s (p : Proc W) :
  fatal_step s p (healthy p) p [].
Proof.
  repeat split; try apply same_metrics_refl.
  - constructor.
  - cbn. by rewrite andb_true_r.
Qed.

Lemma clearAllContainers_range_spec containers p b p' evs :
  clearAllContainers_range containers p = (b, p', evs) ->
  fatal_step StClearContainers p b p' evs.
Proof.
  revert p b p' evs.
  induction containers as [|container containers IH]; intros p b p' evs H;
    cbn [clearAllContainers_range] in H.
  - run_prim H. apply fatal_step_done.
  - destruct (stringInSlice "monitor" (Names container)); [by apply IH|].
    run_bind H. run_prim R. destruct a as [u|err]; cbn [is_ok].
    + apply (fatal_step_call_ok _ _ _ q); auto.
    + run_bind H. run_prim R. run_prim H.
      eapply fatal_step_call_err; eauto.
Qed.

Lemma clearAllContainers_spec p b p' evs :
  clearAllContainers p = (b, p', evs) ->
  fatal_step StClearContainers p b p' evs.
Proof.
  unfold clearAllContainers. intros H.
  run_bind H. run_prim R. destruct a as [containers|err]; cbn [is_ok].
  - apply (fatal_step_call_ok _ _ _ q); auto.
    apply (clearAllContainers_range_spec _ _ _ _ _ H).
  - run_bind H. run_prim R. run_prim H.
    eapply fatal_step_call_err; eauto.
Qed.

Lemma fatal_step_silent s (p q : Proc W) b p' evs :
  healthy q = healthy p -> status q = status p -> same_metrics p q ->
  fatal_step s q b p' evs ->
  fatal_step s p b p' ([] ++ evs).
Proof.
  intros Hh Hs Hm (Ho & Hm' & Hs' & Hh' & ->).
  repeat split; try apply (same_metrics_trans _ _ _ Hm Hm'); cbn [app];
    try assumption; congruence.
Qed.

Lemma deleteTopLayer_range_spec imageHistory p b p' evs :
  deleteTopLayer_range imageHistory p = (b, p', evs) ->
  fatal_step StDeleteTopLayer p b p' evs.
Proof.
  revert p b p' evs.
  induction imageHistory as [|image imageHistory IH]; intros p b p' evs H;
    cbn [deleteTopLayer_range] in H.
  - run_prim H. apply fatal_step_done.
  - destruct (stringInSlice "latest" (Tags image)); [|by apply IH].
    run_bind H. run_prim R. destruct a as [u|err]; cbn [is_ok].
    + run_prim H. apply (fatal_step_call_ok _ _ _ q); auto.
      apply fatal_step_done.
    + run_bind H. run_prim R. run_prim H.
      eapply fatal_step_call_err; eauto.
Qed.

Lemma deleteTopLayer_spec p b p' evs :
  deleteTopLayer cfg p = (b, p', evs) ->
  fatal_step StDeleteTopLayer p b p' evs.
Proof.
  unfold deleteTopLayer. intros H.
  run_bind H. run_prim R. destruct a as [imageHistory|err]; cbn [is_ok].
  - apply (fatal_step_call_ok _ _ _ q); auto.
    apply (deleteTopLayer_range_spec _ _ _ _ _ H).
  - run_bind H. run_prim R. run_prim H.
    eapply fatal_step_call_err; eauto.
Qed.

Lemma createTagLayer_spec p b p' evs :
  createTagLayer cfg p = (b, p', evs) ->
  fatal_step StCreateTagLayer p b p' evs.
Proof.
  unfold createTagLayer. intros H.
  run_bind H. run_prim R. apply (fatal_step_silent _ _ q); auto.
  run_bind H. run_prim R. destruct a0 as [u|err]; cbn [is_ok].
  - apply (fatal_step_call_ok _ _ _ q0); auto.
    run_bind H. run_prim R. destruct a0 as [u'|err]; cbn [is_ok].
    + run_prim H. apply (fatal_step_call_ok _ _ _ q1); auto.
      apply fatal_step_done.
    + run_bind H. run_prim R. run_prim H.
      eapply fatal_step_call_err; eauto.
  - run_bind H. run_prim R. run_prim H.
    eapply fatal_step_call_err; eauto.
Qed.

Lemma verifyDockerClient_spec p b p' evs :
  verifyDockerClient p = (b, p', evs) ->
  Forall (only StVerify) evs /\ same_metrics p p' /\ status p' = status p
  /\ healthy p' = healthy p && b /\ b = negb (failed StVerify evs).
Proof.
  unfold verifyDockerClient. intros H.
  run_bind H. run_prim R. destruct a as [u|err]; cbn [is_ok].
  - run_prim H. rewrite andb_true_r. close_step.
  - run_bind H. run_prim R. run_prim H. rewrite andb_false_r. close_step.
Qed.

Lemma pullTestImage_spec p b p' evs :
  pullTestImage cfg p = (b, p', evs) ->
  tx_step StPull p b p' evs /\ (b = true -> status p' = status p)
  /\ (b = true -> status_written evs = false).
Proof.
  unfold pullTestImage, tx_step. intros H.
  run_bind H. run_prim R. destruct a as [u|err]; cbn [is_ok].
  - run_prim H. close_step.
  - run_bind H. run_prim R. run_prim H. close_step.
Qed.

Lemma pushTestImage_spec p b p' evs :
  pushTestImage cfg p = (b, p', evs) ->
  tx_step StPush p b p' evs /\ status p' = b.
Proof.
  unfold pushTestImage, tx_step. intros H.
  run_bind H. run_prim R. destruct a as [u|err]; cbn [is_ok].
  - run_bind H. run_prim R. run_prim H. close_step.
  - run_bind H. run_prim R. run_prim H. close_step.
Qed.

Lemma buildTLSTransport_spec basePath p r p' evs :
  buildTLSTransport basePath p = (r, p', evs) -> connect_step p r p' evs.
Proof.
  unfold buildTLSTransport, connect_step. intros H.
  run_bind H. run_prim R. destruct a as [u|err]; cbn [is_ok].
  - run_bind H. run_prim R. destruct a as [u'|err]; cbn [is_ok]; run_prim H;
      close_step.
  - run_prim H. close_step.
Qed.

Lemma connect_step_call_ok c (p q : Proc W) r p' evs :
  healthy q = healthy p -> status q = status p -> same_metrics p q ->
  connect_step q r p' evs ->
  connect_step p r p' ([EvCall StConnect c true] ++ evs).
Proof.
  intros Hh Hs Hm (Ho & Hm' & Hs' & Hh' & Hr & Hw).
  repeat split; try apply (same_metrics_trans _ _ _ Hm Hm'); try congruence.
  - cbn. constructor; [reflexivity | assumption].
  - rewrite failed_app. cbn. assumption.
  - exact Hw.
Qed.

Lemma newDockerClient_spec host p r p' evs :
  newDockerClient cfg host p = (r, p', evs) -> connect_step p r p' evs.
Proof.
  unfold newDockerClient. intros H.
  run_bind H. run_prim R. destruct a as [u|err]; cbn [is_ok].
  - apply (connect_step_call_ok _ _ q); auto.
    run_bind H. run_prim R. destruct a as [u'|err]; cbn [is_ok].
    + apply (connect_step_call_ok _ _ q0); auto.
      destruct (negb (Getenv cfg "DOCKER_CERT_PATH" =? "")%string).
      * run_bind H. apply buildTLSTransport_spec in R.
        destruct a as [u''|err]; run_prim H; rewrite app_nil_r; exact R.
      * run_prim H. unfold connect_step. close_step.
    + run_prim H. unfold connect_step. close_step.
  - run_prim H. unfold connect_step. close_step.
Qed.

End Steps.

(** ** Image cleanup, pass by pass *)

Section Cleanup.
Context {W : Type} {RT : Runtime W} (cfg : Config).

Ltac frame := unfold unchanged, cleared; intuition congruence.

Lemma clearAllImages_loop_Cleanup fuel :
  forall skip p r p' evs,
    clearAllImages_loop cfg fuel skip p = (r, p', evs) ->
    Cleanup cfg fuel skip p r p' evs.
Proof.
  induction fuel as [|fuel IH]; intros skip p r p' evs H;
    cbn [clearAllImages_loop] in H.
  - run_prim H. constructor.
  - run_bind H. run_prim R. destruct a as [images|err]; cbn [is_ok].
    + destruct (imagesFound skip images) eqn:Ef; cbn [negb] in H.
      * destruct images as [|image images]; [discriminate Ef|].
        change (take 1 (image :: images)) with [image] in H.
        cbn [removeImages] in H. run_bind H.
        destruct (toSkip skip (ImageID image)) eqn:Et.
        -- run_prim R. cbn [negb] in H. run_prim H. cbn.
           eapply Cl_first_skipped; eauto; frame.
        -- run_bind R. run_prim R0. destruct a0 as [u|err]; cbn [is_ok].
           ++ run_prim R. cbn [negb] in H. apply IH in H. cbn.
              eapply Cl_removed; eauto; frame.
           ++ destruct (under_docker cfg) eqn:Eu; cbn [negb] in R.
              ** run_prim R. cbn [negb] in H. run_prim H. cbn.
                 eapply Cl_refused_constrained; eauto; frame.
              ** run_bind R. run_prim R0. run_prim R. run_prim H. cbn.
                 eapply Cl_refused_fatal; eauto; frame.
      * run_bind H. run_prim R. run_prim H. cbn. rewrite Hh.
        eapply Cl_nothing_found; eauto; frame.
    + run_bind H. run_prim R. run_prim H. cbn.
      eapply Cl_list_error; eauto; frame.
Qed.

Lemma Cleanup_frame fuel skip p r p' evs :
  Cleanup cfg fuel skip p r p' evs ->
  Forall (only StClearImages) evs /\ same_metrics p p' /\ status p' = status p.
Proof.
  induction 1;
    repeat match goal with
    | H : unchanged _ _ |- _ => destruct H as (? & ? & ?)
    | H : cleared _ _ |- _ => destruct H as (? & ? & ? & ?)
    | H : _ /\ _ |- _ => destruct H
    end;
    (split; [by repeat constructor|]);
    unfold same_metrics in *; intuition congruence.
Qed.

Lemma Cleanup_healthy fuel skip p r p' evs :
  Cleanup cfg fuel skip p r p' evs ->
  healthy p' = healthy p && negb (images_fatal cfg evs)
  /\ (images_fatal cfg evs = true -> exists skip', r = Some (false, skip'))
  /\ (forall skip', r = Some (false, skip') -> healthy p' = false).
Proof.
  unfold images_fatal.
  induction 1 as
    [ skip p | fuel skip p q p' err Hl Hq Hc | fuel skip p q images Hl Hq Hf
    | fuel skip p q image images Hl Hq Hf Ht
    | fuel skip p q q' image images u r p' evs Hl Hq Ht Hr Hq' HC IH
    | fuel skip p q q' image images err Hl Hq Ht Hr Hq' Hu
    | fuel skip p q q' p' image images err Hl Hq Ht Hr Hq' Hc Hu ];
    repeat match goal with
    | H : unchanged _ _ |- _ => destruct H as (? & ? & ?)
    | H : cleared _ _ |- _ => destruct H as (? & ? & ? & ?)
    end; unfold failed_list, failed_remove in *; cbn.
  5: { destruct IH as (IH1 & IH2 & IH3).
       repeat split; intros; eauto; congruence. }
  all: destruct (under_docker cfg); try discriminate;
    destruct (healthy p); cbn; repeat split; intros; eauto; congruence.
Qed.

(** Every pass but the last removes an image: when the loop has stopped
    there is one pass more than there are removals, and while it runs there
    are as many. *)
Lemma Cleanup_passes fuel skip p r p' evs :
  Cleanup cfg fuel skip p r p' evs ->
  match r with
  | Some _ => passes evs = S (removals evs) /\ passes evs <= fuel
  | None => passes evs = fuel /\ removals evs = fuel
  end.
Proof.
  induction 1 as
    [ | | | | fuel skip p q q' image images u r p' evs Hl Hq Ht Hr Hq' HC IH | | ];
    cbn; try (split; [reflexivity | lia]); try (split; reflexivity).
  destruct r; cbn in *; unfold passes, removals in *; lia.
Qed.

(** A refused removal in the constrained mode is the last thing a cleanup
    does: the image goes into the skip map and the function returns true. *)
Lemma Cleanup_refused fuel skip p r p' evs :
  Cleanup cfg fuel skip p r p' evs ->
  under_docker cfg = true -> failed_remove evs = true ->
  exists pre id,
    evs = pre ++ [EvCall StClearImages (RemoveImage id) false]
    /\ failed_remove pre = false /\ failed_list pre = false
    /\ toSkip skip id = false
    /\ r = Some (true, <[id := true]> skip).
Proof.
  induction 1 as
    [ skip p | fuel skip p q p' err Hl Hq Hc | fuel skip p q images Hl Hq Hf
    | fuel skip p q image images Hl Hq Hf Ht
    | fuel skip p q q' image images u r p' evs Hl Hq Ht Hr Hq' HC IH
    | fuel skip p q q' image images err Hl Hq Ht Hr Hq' Hu
    | fuel skip p q q' p' image images err Hl Hq Ht Hr Hq' Hc Hu ];
    intros Hunder Hfail; try discriminate Hfail; try congruence.
  - destruct (IH Hunder Hfail) as (pre & id & -> & Hp & Hp' & Hs & ->).
    exists (EvCall StClearImages ListImages true
            :: EvCall StClearImages (RemoveImage (ImageID image)) true :: pre), id.
    repeat split; assumption.
  - exists [EvCall StClearImages ListImages true], (ImageID image).
    repeat split; assumption.
Qed.

(** A cleanup that reports success either found the runtime without images,
    every call having succeeded, or stopped at a refused removal in the
    constrained mode.  The skip map is empty each time it is read. *)
Lemma Cleanup_true fuel skip (p : Proc W) r p' evs :
  Cleanup cfg fuel skip p r p' evs ->
  skip = ∅ ->
  forall skip', r = Some (true, skip') ->
    (healthy p' = true /\ skip' = ∅ /\ any_failed evs = false
     /\ exists w, client_ListImages w = (Ok [], world p'))
    \/ (under_docker cfg = true
        /\ exists pre id,
             evs = pre ++ [EvCall StClearImages (RemoveImage id) false]
             /\ skip' = {[ id := true ]}).
Proof.
  induction 1 as
    [ skip p | fuel skip p q p' err Hl Hq Hc | fuel skip p q images Hl Hq Hf
    | fuel skip p q image images Hl Hq Hf Ht
    | fuel skip p q q' image images u r p' evs Hl Hq Ht Hr Hq' HC IH
    | fuel skip p q q' image images err Hl Hq Ht Hr Hq' Hu
    | fuel skip p q q' p' image images err Hl Hq Ht Hr Hq' Hc Hu ];
    intros -> skip' [=]; subst.
  - left. destruct Hq as (Hh & _).
    apply imagesFound_empty in Hf. subst images.
    repeat split; [congruence|]. eauto.
  - unfold toSkip in Ht. rewrite lookup_empty in Ht. discriminate.
  - destruct (IH eq_refl _ eq_refl)
      as [(Hh & Hs & Hf & Hw) | (Hu & pre & id & -> & ->)].
    + left. by repeat split.
    + right. split; [assumption|].
      exists (EvCall StClearImages ListImages true
              :: EvCall StClearImages (RemoveImage (ImageID image)) true :: pre), id.
      by split.
  - right. split; [assumption|].
    exists [EvCall StClearImages ListImages true], (ImageID image).
    split; [reflexivity|]. by rewrite insert_empty.
Qed.

End Cleanup.

(** ** One iteration of the probe loop *)

Section Loop.
Context {W : Type} {RT : Runtime W} (cfg : Config).

Lemma fatal_step_gate s (p : Proc W) b p' evs :
  fatal_step s p b p' evs -> gate (failed s) s p b p' evs.
Proof.
  intros (Ho & Hm & Hs & Hh & ->). repeat split; try apply Hm; auto.
  - intros Hb. rewrite Hh in Hb. apply andb_true_iff in Hb as [_ Hb].
    by apply negb_true_iff in Hb.
Qed.

Lemma sleep_phase_spec firstLoop duration (p : Proc W) u q l :
  (if negb firstLoop then sleep duration else ret tt) p = (u, q, l) ->
  l = sleep_prefix firstLoop duration /\ unchanged p q.
Proof.
  destruct firstLoop; cbn [negb]; intros H; run_prim H; cbn; split; auto;
    unfold unchanged; auto using same_metrics_refl.
Qed.

Lemma containers_phase_spec p b p' evs :
  (if negb (under_docker cfg) then clearAllContainers else ret true) p
  = (b, p', evs) ->
  gate (failed StClearContainers) StClearContainers p b p' evs.
Proof.
  destruct (under_docker cfg); cbn [negb]; intros H.
  - run_prim H. unfold gate. cbn. rewrite andb_true_r.
    repeat split; try apply same_metrics_refl; auto; discriminate.
  - by apply fatal_step_gate, clearAllContainers_spec.
Qed.

Lemma clearAllImages_spec fuel p r p' evs :
  clearAllImages cfg fuel p = (r, p', evs) ->
  Forall (only StClearImages) evs
  /\ same_metrics p p'
  /\ status p' = status p
  /\ healthy p' = healthy p && negb (images_fatal cfg evs)
  /\ (r = Some true -> images_fatal cfg evs = false)
  /\ (r = None -> images_fatal cfg evs = false)
  /\ (r = Some false -> healthy p' = false)
  /\ (under_docker cfg = true -> failed_remove evs = true -> r = Some true).
Proof.
  unfold clearAllImages. intros H. run_bind H. run_prim H.
  rewrite app_nil_r. apply clearAllImages_loop_Cleanup in R.
  destruct (Cleanup_frame _ _ _ _ _ _ _ R) as (Ho & Hm & Hs).
  destruct (Cleanup_healthy _ _ _ _ _ _ _ R) as (Hh & Hf & Hf').
  repeat split; try apply Hm; auto.
  - intros Hr. destruct (images_fatal cfg l) eqn:Hi; [|reflexivity].
    destruct (Hf eq_refl) as [skip' ->]. discriminate Hr.
  - intros Hr. destruct (images_fatal cfg l) eqn:Hi; [|reflexivity].
    destruct (Hf eq_refl) as [skip' ->]. discriminate Hr.
  - destruct a as [[[|] skip']|]; cbn; intros [=]. eauto.
  - intros Hu Hr.
    destruct (Cleanup_refused _ _ _ _ _ _ _ R Hu Hr) as (pre & id & _ & _ & _ & _ & ->).
    reflexivity.
Qed.

(** The events before the pipeline are neither calls nor clears. *)
Lemma failed_prefix s f d body :
  failed s (sleep_prefix f d ++ EvStatus true :: body) = failed s body.
Proof. by destruct f. Qed.

Lemma invoked_prefix s f d body :
  invoked s (sleep_prefix f d ++ EvStatus true :: body) = invoked s body.
Proof. by destruct f. Qed.

Lemma failed_list_prefix f d body :
  failed_list (sleep_prefix f d ++ EvStatus true :: body) = failed_list body.
Proof. by destruct f. Qed.

Lemma failed_remove_prefix f d body :
  failed_remove (sleep_prefix f d ++ EvStatus true :: body) = failed_remove body.
Proof. by destruct f. Qed.

Lemma status_cleared_prefix f d body :
  status_cleared (sleep_prefix f d ++ EvStatus true :: body)
  = status_cleared body.
Proof. by destruct f. Qed.

Lemma healthy_set_prefix f d body :
  healthy_set (sleep_prefix f d ++ EvStatus true :: body) = healthy_set body.
Proof. by destruct f. Qed.

Lemma clear_is_no_call : Forall (only StVerify) [EvHealthy false].
Proof. by repeat constructor. Qed.

Lemma fatal_step_reported s (p p' : Proc W) b evs :
  fatal_step s p b p' evs -> gate (failed s) s p b p' evs /\ healthy p' = b.
Proof.
  intros Hf. split; [by apply fatal_step_gate|].
  by destruct Hf as (_ & _ & _ & _ & ->).
Qed.

(** Replaces the run of each step by its contract. *)
Ltac use_contracts :=
  repeat match goal with
  | R : (if negb _ then sleep _ else ret tt) _ = _ |- _ =>
      apply sleep_phase_spec in R as (-> & ?)
  | R : newDockerClient _ _ _ = _ |- _ => apply newDockerClient_spec in R
  | R : (if negb (under_docker _) then clearAllContainers else ret true) _ = _
    |- _ => apply containers_phase_spec in R
  | R : clearAllImages _ _ _ = _ |- _ => apply clearAllImages_spec in R
  | R : pullTestImage _ _ = _ |- _ => apply pullTestImage_spec in R
  | R : deleteTopLayer _ _ = _ |- _ =>
      apply deleteTopLayer_spec, fatal_step_reported in R
  | R : createTagLayer _ _ = _ |- _ =>
      apply createTagLayer_spec, fatal_step_reported in R
  | R : pushTestImage _ _ = _ |- _ => apply pushTestImage_spec in R
  | R : _ = (_, _, _) |- _ => run_prim R
  end.

(** Walks a run of [iteration] down to each of the ways it can end. *)
Ltac walk H :=
  unfold iteration in H;
  repeat first
    [ match type of H with
      | (if negb ?b then _ else _) _ = _ => destruct b; cbn [negb] in H
      | (match ?r with _ => _ end) _ = _ => destruct r
      end
    | run_bind H; use_contracts ];
  use_contracts; cbn [app]; rewrite ?app_nil_r.

(** Opens the contracts gathered by [walk] and records what each says about
    its step's failures. *)
Ltac open_contracts :=
  pose proof clear_is_no_call;
  unfold connect_step, gate, fatal_step, tx_step, unchanged, cleared,
    images_fatal in *;
  repeat match goal with
  | H : _ /\ _ |- _ => destruct H
  | H : ?x = ?x -> _ |- _ => specialize (H eq_refl)
  | H : true = false -> _ |- _ => clear H
  | H : false = true -> _ |- _ => clear H
  | H : Some _ = Some _ -> _ |- _ => clear H
  | H : Some _ = None -> _ |- _ => clear H
  | H : None = Some _ -> _ |- _ => clear H
  | H : is_ok _ = _ |- _ => cbn [is_ok] in H
  | H : true = negb _ |- _ => symmetry in H; apply negb_true_iff in H
  | H : false = negb _ |- _ => symmetry in H; apply negb_false_iff in H
  | H : _ || _ = false |- _ => apply orb_false_iff in H
  end.

(** Splits the observers along the segments of the trace and discards those
    that look for another step's events. *)
Ltac segments :=
  rewrite ?failed_prefix, ?invoked_prefix, ?failed_list_prefix,
    ?failed_remove_prefix, ?status_cleared_prefix, ?healthy_set_prefix;
  rewrite ?failed_app, ?invoked_app, ?failed_list_app, ?failed_remove_app,
    ?status_cleared_app, ?healthy_set_app;
  repeat match goal with
  | Ho : Forall (only ?s) ?l |- context [healthy_set ?l] =>
      rewrite (only_healthy_set s l Ho)
  | Ho : Forall (only_tx ?s) ?l |- context [healthy_set ?l] =>
      rewrite (only_tx_healthy_set s l Ho)
  | Ho : Forall (only ?s) ?l |- context [failed ?s' ?l] =>
      rewrite (only_failed s s' l Ho) by discriminate
  | Ho : Forall (only ?s) ?l |- context [invoked ?s' ?l] =>
      rewrite (only_invoked s s' l Ho) by discriminate
  | Ho : Forall (only ?s) ?l |- context [failed_list ?l] =>
      rewrite (only_list_failure s l Ho) by discriminate
  | Ho : Forall (only ?s) ?l |- context [failed_remove ?l] =>
      rewrite (only_remove_failure s l Ho) by discriminate
  | Ho : Forall (only ?s) ?l |- context [status_cleared ?l] =>
      rewrite (only_status_cleared s l Ho)
  | Ho : Forall (only_tx ?s) ?l |- context [failed ?s' ?l] =>
      rewrite (only_tx_failed s s' l Ho) by discriminate
  | Ho : Forall (only_tx ?s) ?l |- context [invoked ?s' ?l] =>
      rewrite (only_tx_invoked s s' l Ho) by discriminate
  | Ho : Forall (only_tx ?s) ?l |- context [failed_list ?l] =>
      rewrite (only_tx_list_failure s l Ho) by discriminate
  | Ho : Forall (only_tx ?s) ?l |- context [failed_remove ?l] =>
      rewrite (only_tx_remove_failure s l Ho) by discriminate
  end.

Ltac name_atom t :=
  let x := fresh "x" in set (x := t) in *; clearbody x.

(** Names every flag, metric and step outcome, and eliminates those that an
    equation determines. *)
Ltac flatten :=
  unfold same_metrics in *;
  repeat match goal with H : _ /\ _ |- _ => destruct H end;
  repeat match goal with
  | |- context [healthy ?q] => name_atom (healthy q)
  | |- context [status ?q] => name_atom (status q)
  | |- context [promSuccessMetric ?q] => name_atom (promSuccessMetric q)
  | |- context [promFailureMetric ?q] => name_atom (promFailureMetric q)
  | |- context [promPullMetric ?q] => name_atom (promPullMetric q)
  | |- context [promPushMetric ?q] => name_atom (promPushMetric q)
  | |- context [failed ?s ?l] => name_atom (failed s l)
  | |- context [invoked ?s ?l] => name_atom (invoked s l)
  | |- context [failed_list ?l] => name_atom (failed_list l)
  | |- context [failed_remove ?l] => name_atom (failed_remove l)
  | |- context [status_cleared ?l] => name_atom (status_cleared l)
  | |- context [under_docker ?c] => name_atom (under_docker c)
  | H : context [healthy ?q] |- _ => name_atom (healthy q)
  | H : context [status ?q] |- _ => name_atom (status q)
  | H : context [promSuccessMetric ?q] |- _ => name_atom (promSuccessMetric q)
  | H : context [promFailureMetric ?q] |- _ => name_atom (promFailureMetric q)
  | H : context [promPullMetric ?q] |- _ => name_atom (promPullMetric q)
  | H : context [promPushMetric ?q] |- _ => name_atom (promPushMetric q)
  | H : context [failed ?s ?l] |- _ => name_atom (failed s l)
  | H : context [invoked ?s ?l] |- _ => name_atom (invoked s l)
  | H : context [failed_list ?l] |- _ => name_atom (failed_list l)
  | H : context [failed_remove ?l] |- _ => name_atom (failed_remove l)
  | H : context [status_cleared ?l] |- _ => name_atom (status_cleared l)
  | H : context [under_docker ?c] |- _ => name_atom (under_docker c)
  end;
  subst.

(** Decides what is left by cases on the outcomes still unknown. *)
Ltac decide_outcomes :=
  repeat match goal with b : bool |- _ => destruct b end;
  cbn in *; repeat split; intros;
  repeat match goal with
  | H : ?x = ?x -> _ |- _ => specialize (H eq_refl)
  end;
  try match goal with H : _ = _ |- _ => discriminate H end;
  try reflexivity; try tauto.

Ltac iteration_cases H :=
  walk H; open_contracts; unfold fatal_failure; segments; flatten;
  decide_outcomes.

(** [healthy] after an iteration: what it was, unless a fatal failure
    occurred; and a fatal failure ends the loop. *)
Lemma iteration_healthy fuel firstLoop duration p c p' evs :
  iteration cfg fuel firstLoop duration p = (c, p', evs) ->
  healthy p' = healthy p && negb (fatal_failure (under_docker cfg) evs)
  /\ (fatal_failure (under_docker cfg) evs = true -> c = Return).
Proof. intros H. iteration_cases H. Qed.

(** [status] after an iteration: cleared exactly by a failed pull or push. *)
Lemma iteration_status fuel firstLoop duration p c p' evs :
  iteration cfg fuel firstLoop duration p = (c, p', evs) ->
  status_cleared evs = failed StPull evs || failed StPush evs
  /\ status p' = negb (failed StPull evs || failed StPush evs).
Proof. intros H. iteration_cases H. Qed.

(** An iteration starts by sleeping (except the first) and setting
    [status]. *)
Lemma iteration_shape fuel firstLoop duration p c p' evs :
  iteration cfg fuel firstLoop duration p = (c, p', evs) ->
  exists body, evs = sleep_prefix firstLoop duration ++ EvStatus true :: body.
Proof. intros H. walk H; eexists; reflexivity. Qed.


(** In the constrained mode the loop goes on to the pull after a refused
    removal. *)
Lemma iteration_refused fuel firstLoop duration p c p' evs :
  iteration cfg fuel firstLoop duration p = (c, p', evs) ->
  under_docker cfg = true -> failed_remove evs = true ->
  invoked StPull evs = true.
Proof. intros H. iteration_cases H. Qed.

(** An iteration whose push succeeds. *)
Lemma iteration_pushed fuel firstLoop duration p c p' evs :
  iteration cfg fuel firstLoop duration p = (c, p', evs) ->
  invoked StPush evs = true -> failed StPush evs = false ->
  c = Continue (2 * Minute)
  /\ status p' = true
  /\ healthy p' = true
  /\ promSuccessMetric p' = S (promSuccessMetric p)
  /\ promFailureMetric p' = promFailureMetric p
  /\ (exists d, promPullMetric p' = promPullMetric p ++ [d])
  /\ (exists d, promPushMetric p' = promPushMetric p ++ [d]).
Proof. intros H. iteration_cases H; eauto. Qed.

(** No iteration ever stores true in [healthy]. *)
Lemma iteration_never_sets fuel firstLoop duration p c p' evs :
  iteration cfg fuel firstLoop duration p = (c, p', evs) ->
  healthy_set evs = false.
Proof. intros H. iteration_cases H. Qed.

(** When an iteration returns, so does the loop, whatever is left to run. *)
Lemma mainLoop_from_returns n fuel firstLoop duration p p' evs :
  iteration cfg fuel firstLoop duration p = (Return, p', evs) ->
  mainLoop_from cfg (S n) fuel firstLoop duration p = (Returned, p', evs).
Proof.
  intros H. cbn [mainLoop_from]. unfold bind at 1. rewrite H. cbn.
  by rewrite app_nil_r.
Qed.

Lemma mainLoop_from_never_sets n fuel :
  forall firstLoop duration p st p' evs,
    mainLoop_from cfg n fuel firstLoop duration p = (st, p', evs) ->
    healthy_set evs = false /\ (healthy p = false -> healthy p' = false).
Proof.
  induction n as [|n IH]; intros firstLoop duration p st p' evs H;
    cbn [mainLoop_from] in H.
  - run_prim H. auto.
  - run_bind H.
    pose proof (iteration_never_sets _ _ _ _ _ _ _ R) as Hset.
    destruct (iteration_healthy _ _ _ _ _ _ _ R) as (Hh & _).
    assert (Hq : healthy p = false -> healthy q = false).
    { intros Hp. rewrite Hh, Hp. reflexivity. }
    rewrite healthy_set_app, Hset.
    destruct a as [|duration'|]; try (run_prim H; auto).
    destruct (IH _ _ _ _ _ _ H) as (Hset' & Hh'). auto.
Qed.

(** An iteration entered with [healthy] false never gets to create a layer
    or to push, and records no success. *)
Lemma iteration_unhealthy fuel firstLoop duration p c p' evs :
  iteration cfg fuel firstLoop duration p = (c, p', evs) ->
  healthy p = false ->
  healthy p' = false
  /\ promSuccessMetric p' = promSuccessMetric p
  /\ promPushMetric p' = promPushMetric p
  /\ invoked StCreateTagLayer evs = false
  /\ invoked StPush evs = false.
Proof. intros H. iteration_cases H. Qed.

Lemma mainLoop_from_unhealthy n fuel :
  forall firstLoop duration p st p' evs,
    mainLoop_from cfg n fuel firstLoop duration p = (st, p', evs) ->
    healthy p = false ->
    promSuccessMetric p' = promSuccessMetric p
    /\ promPushMetric p' = promPushMetric p
    /\ invoked StCreateTagLayer evs = false
    /\ invoked StPush evs = false.
Proof.
  induction n as [|n IH]; intros firstLoop duration p st p' evs H Hp;
    cbn [mainLoop_from] in H.
  - run_prim H. auto.
  - run_bind H.
    destruct (iteration_unhealthy _ _ _ _ _ _ _ R Hp)
      as (Hq & Hs & Hpm & Hc & Hpu).
    rewrite !invoked_app, Hc, Hpu.
    destruct a as [|duration'|]; try (run_prim H; auto).
    destruct (IH _ _ _ _ _ _ H Hq) as (Hs' & Hpm' & Hc' & Hpu').
    repeat split; auto; congruence.
Qed.

(** ** Counting along an iteration *)

(** What the counted events of each step are. *)
Lemma pullTestImage_tally (p : Proc W) b p' evs :
  pullTestImage cfg p = (b, p', evs) ->
  count (is_pull true) evs = (if b then 1 else 0)
  /\ count (is_pull false) evs = (if b then 0 else 1)
  /\ (forall ok, count (is_push ok) evs = 0)
  /\ count is_test_start evs = 0.
Proof.
  unfold pullTestImage, bind, call.
  destruct (client_PullImage (repository cfg) (world p)) as [[u|err] w];
    intros [= <- <- <-]; repeat split; by intros [].
Qed.

Lemma pushTestImage_tally (p : Proc W) b p' evs :
  pushTestImage cfg p = (b, p', evs) ->
  count (is_push true) evs = (if b then 1 else 0)
  /\ count (is_push false) evs = (if b then 0 else 1)
  /\ (forall ok, count (is_pull ok) evs = 0)
  /\ count is_test_start evs = 0.
Proof.
  unfold pushTestImage, bind, call.
  destruct (client_PushImage (repository cfg) (registryHost cfg) (world p))
    as [[u|err] w]; intros [= <- <- <-]; repeat split; by intros [].
Qed.

Lemma newDockerClient_tally host (p : Proc W) r p' evs :
  newDockerClient cfg host p = (r, p', evs) ->
  count is_test_start evs = 1
  /\ (forall ok, count (is_pull ok) evs = 0)
  /\ (forall ok, count (is_push ok) evs = 0).
Proof.
  unfold newDockerClient, buildTLSTransport, bind, call, ret.
  destruct (url_Parse host (world p)) as [[u|err] w]; cbn.
  2: { intros [= <- <- <-]. by repeat split. }
  destruct (negb (String.eqb (Getenv cfg "DOCKER_CERT_PATH") "")); cbn.
  - destruct (docker_NewClient host true w) as [[u'|err] w1]; cbn.
    2: { intros [= <- <- <-]. by repeat split. }
    destruct (ioutil_ReadFile _ w1) as [[u1|err] w2]; cbn.
    2: { intros [= <- <- <-]. by repeat split. }
    destruct (tls_LoadX509KeyPair _ _ w2) as [[u2|err] w3]; cbn;
      intros [= <- <- <-]; by repeat split.
  - destruct (docker_NewClient host false w) as [[u'|err] w1]; cbn;
      intros [= <- <- <-]; by repeat split.
Qed.

(** The steps that always issue a call. *)
Lemma containers_phase_invoked (p : Proc W) b p' evs :
  (if negb (under_docker cfg) then clearAllContainers else ret true) p
  = (b, p', evs) ->
  invoked StClearContainers evs = negb (under_docker cfg).
Proof.
  destruct (under_docker cfg); cbn [negb]; intros H.
  - by run_prim H.
  - unfold clearAllContainers in H. run_bind H. by run_prim R.
Qed.

Lemma deleteTopLayer_invoked (p : Proc W) b p' evs :
  deleteTopLayer cfg p = (b, p', evs) -> invoked StDeleteTopLayer evs = true.
Proof. unfold deleteTopLayer. intros H. run_bind H. by run_prim R. Qed.

Lemma createTagLayer_invoked (p : Proc W) b p' evs :
  createTagLayer cfg p = (b, p', evs) -> invoked StCreateTagLayer evs = true.
Proof.
  unfold createTagLayer. intros H. run_bind H. run_prim R.
  run_bind H. by run_prim R.
Qed.

(** Records what is counted in a step's run before the run is replaced by
    the step's contract. *)
Ltac note_runs :=
  repeat match goal with
  | R : newDockerClient _ _ _ = _ |- _ =>
      pose proof (newDockerClient_tally _ _ _ _ _ R);
      apply newDockerClient_spec in R
  | R : (if negb (under_docker _) then clearAllContainers else ret true) _ = _
    |- _ =>
      pose proof (containers_phase_invoked _ _ _ _ R);
      apply containers_phase_spec in R
  | R : deleteTopLayer _ _ = _ |- _ =>
      pose proof (deleteTopLayer_invoked _ _ _ _ R);
      apply deleteTopLayer_spec, fatal_step_reported in R
  | R : createTagLayer _ _ = _ |- _ =>
      pose proof (createTagLayer_invoked _ _ _ _ R);
      apply createTagLayer_spec, fatal_step_reported in R
  | R : pullTestImage _ _ = _ |- _ =>
      pose proof (pullTestImage_tally _ _ _ _ R);
      apply pullTestImage_spec in R
  | R : pushTestImage _ _ = _ |- _ =>
      pose proof (pushTestImage_tally _ _ _ _ R);
      apply pushTestImage_spec in R
  end.

(** [walk], recording the counts on the way. *)
Ltac walk_noting H :=
  unfold iteration in H;
  repeat first
    [ match type of H with
      | (if negb ?b then _ else _) _ = _ => destruct b; cbn [negb] in H
      | (match ?r with _ => _ end) _ = _ => destruct r
      end
    | run_bind H; note_runs; use_contracts ];
  note_runs; use_contracts; cbn [app]; rewrite ?app_nil_r.


(** Adds up the counted events along the segments of the trace. *)
Ltac tally :=
  rewrite ?count_app, ?sleeps_app, ?count_cons, ?sleeps_status;
  rewrite ?count_app, ?sleeps_app;
  rewrite ?count_sleep_prefix by reflexivity;
  cbn [is_pull is_push is_test_start];
  repeat match goal with
  | F : forall ok, count (?f ok) ?l = 0 |- context [count (?f ?b) ?l] =>
      rewrite (F b)
  | F : count ?f ?l = _ |- context [count ?f ?l] => rewrite F
  | Ho : Forall (only ?s) ?l |- context [count (is_pull ?ok) ?l] =>
      rewrite (only_count_pull s ok l Ho) by discriminate
  | Ho : Forall (only ?s) ?l |- context [count (is_push ?ok) ?l] =>
      rewrite (only_count_push s ok l Ho) by discriminate
  | Ho : Forall (only ?s) ?l |- context [count is_test_start ?l] =>
      rewrite (only_count_start s l Ho) by discriminate
  | Ho : Forall (only ?s) ?l |- context [sleeps ?l] =>
      rewrite (only_sleeps s l Ho)
  | Ho : Forall (only_tx ?s) ?l |- context [sleeps ?l] =>
      rewrite (only_tx_sleeps s l Ho)
  end.

(** An iteration starts one test; its counters and summaries follow its pull
    and its push; it sleeps at its start only. *)
Lemma iteration_tally fuel firstLoop duration (p : Proc W) c p' evs :
  iteration cfg fuel firstLoop duration p = (c, p', evs) ->
  promFailureMetric p'
  = promFailureMetric p + count (is_pull false) evs + count (is_push false) evs
  /\ promSuccessMetric p' = promSuccessMetric p + count (is_push true) evs
  /\ length (promPullMetric p')
     = length (promPullMetric p) + count (is_pull true) evs
  /\ length (promPushMetric p')
     = length (promPushMetric p) + count (is_push true) evs
  /\ count is_test_start evs = 1
  /\ sleeps evs = sleeps (sleep_prefix firstLoop duration).
Proof.
  intros H. walk_noting H; open_contracts; tally; flatten;
    rewrite ?length_app, ?app_nil_r; cbn [length]; repeat split; lia.
Qed.

(** How an iteration leaves the two flags, by the way it ends. *)
Lemma iteration_end fuel firstLoop duration (p : Proc W) c p' evs :
  iteration cfg fuel firstLoop duration p = (c, p', evs) ->
  match c with
  | Return => healthy p' = false /\ status p' = true
  | Continue d =>
      healthy p' = healthy p
      /\ ((d = (30 * Second)%Z /\ status p' = false)
          \/ (d = (2 * Minute)%Z /\ status p' = true))
  | Diverge => healthy p' = healthy p /\ status p' = true
  end.
Proof. intros H. iteration_cases H. Qed.

Lemma mainLoop_from_end n fuel :
  forall firstLoop duration (p : Proc W) st p' evs,
    mainLoop_from cfg n fuel firstLoop duration p = (st, p', evs) ->
    match st with
    | Returned => healthy p' = false /\ status p' = true
    | Running f d =>
        healthy p' = healthy p
        /\ (n = 0
            \/ (f = false
                /\ ((d = (30 * Second)%Z /\ status p' = false)
                    \/ (d = (2 * Minute)%Z /\ status p' = true))))
    | Stuck => healthy p' = healthy p /\ status p' = true
    end.
Proof.
  induction n as [|n IH]; intros firstLoop duration p st p' evs H;
    cbn [mainLoop_from] in H.
  - run_prim H. auto.
  - run_bind H. pose proof (iteration_end _ _ _ _ _ _ _ R) as He.
    destruct a as [|duration'|]; try (run_prim H; exact He).
    destruct He as (Hh & Hd). specialize (IH _ _ _ _ _ _ H).
    destruct n as [|n].
    + cbn [mainLoop_from] in H. run_prim H. split; [assumption|]. right. auto.
    + destruct st as [|f d|].
      * assumption.
      * destruct IH as (Hh' & [Hn|Hf]); [discriminate Hn|].
        split; [congruence|]. right. assumption.
      * destruct IH as (Hh' & Hs). split; [congruence|assumption].
Qed.

(** The counters and the summaries follow the pulls and the pushes. *)
Lemma mainLoop_from_tally n fuel :
  forall firstLoop duration (p : Proc W) st p' evs,
    mainLoop_from cfg n fuel firstLoop duration p = (st, p', evs) ->
    promFailureMetric p'
    = promFailureMetric p + count (is_pull false) evs + count (is_push false) evs
    /\ promSuccessMetric p' = promSuccessMetric p + count (is_push true) evs
    /\ length (promPullMetric p')
       = length (promPullMetric p) + count (is_pull true) evs
    /\ length (promPushMetric p')
       = length (promPushMetric p) + count (is_push true) evs.
Proof.
  induction n as [|n IH]; intros firstLoop duration p st p' evs H;
    cbn [mainLoop_from] in H.
  - run_prim H. unfold count. cbn. lia.
  - run_bind H.
    destruct (iteration_tally _ _ _ _ _ _ _ R) as (Hf & Hs & Hpl & Hpu & _).
    destruct a as [|duration'|]; try (run_prim H; rewrite app_nil_r; lia).
    rewrite !count_app.
    destruct (IH _ _ _ _ _ _ H) as (Hf' & Hs' & Hpl' & Hpu'). lia.
Qed.

(** One sleep between two tests, none before the first. *)
Lemma mainLoop_from_sleeps n fuel :
  forall firstLoop duration (p : Proc W) st p' evs,
    mainLoop_from cfg n fuel firstLoop duration p = (st, p', evs) ->
    Forall (fun d => d = duration \/ d = (30 * Second)%Z \/ d = (2 * Minute)%Z)
      (sleeps evs)
    /\ count is_test_start evs <= n
    /\ (n = 0
        \/ count is_test_start evs
           = length (sleeps evs) + (if firstLoop then 1 else 0)).
Proof.
  induction n as [|n IH]; intros firstLoop duration p st p' evs H;
    cbn [mainLoop_from] in H.
  - run_prim H. repeat split; auto.
  - run_bind H.
    destruct (iteration_tally _ _ _ _ _ _ _ R) as (_ & _ & _ & _ & Hst & Hsl).
    pose proof (iteration_end _ _ _ _ _ _ _ R) as He.
    rewrite count_app, sleeps_app, Hst, Hsl.
    assert (Hpre : Forall (fun d => d = duration \/ d = (30 * Second)%Z
                                    \/ d = (2 * Minute)%Z)
                     (sleeps (sleep_prefix firstLoop duration))).
    { destruct firstLoop; repeat constructor. }
    destruct a as [|duration'|].
    + run_prim H. rewrite app_nil_r. repeat split; auto; [cbn; lia|].
      right. destruct firstLoop; reflexivity.
    + destruct (IH _ _ _ _ _ _ H) as (Hall & Hle & Hn).
      repeat split.
      * apply Forall_app. split; [assumption|].
        eapply Forall_impl; [exact Hall|]. cbn.
        destruct He as (_ & [(-> & _)|(-> & _)]); tauto.
      * lia.
      * right. rewrite length_app.
        destruct Hn as [->|Hn].
        -- cbn [mainLoop_from] in H. run_prim H.
           destruct firstLoop; reflexivity.
        -- rewrite Hn. destruct firstLoop; cbn; lia.
    + run_prim H. rewrite app_nil_r. repeat split; auto; [cbn; lia|].
      right. destruct firstLoop; reflexivity.
Qed.

(** Containers are listed exactly when the mode is not the constrained one
    and the connection was made. *)
Lemma iteration_containers fuel firstLoop duration (p : Proc W) c p' evs :
  iteration cfg fuel firstLoop duration p = (c, p', evs) ->
  invoked StClearContainers evs
  = negb (under_docker cfg) && negb (failed StConnect evs).
Proof.
  intros H. walk_noting H; open_contracts; segments; flatten; decide_outcomes.
Qed.

(** The push is attempted only after everything before it went well. *)
Lemma iteration_pipeline fuel firstLoop duration (p : Proc W) c p' evs :
  iteration cfg fuel firstLoop duration p = (c, p', evs) ->
  invoked StPush evs = true ->
  healthy p = true
  /\ fatal_failure (under_docker cfg) evs = false
  /\ invoked StPull evs = true /\ failed StPull evs = false
  /\ invoked StDeleteTopLayer evs = true
  /\ invoked StCreateTagLayer evs = true.
Proof.
  intros H. walk_noting H; open_contracts; unfold fatal_failure; segments;
    flatten; decide_outcomes.
Qed.

(** The loop never pings the daemon. *)
Lemma iteration_never_verifies fuel firstLoop duration (p : Proc W) c p' evs :
  iteration cfg fuel firstLoop duration p = (c, p', evs) ->
  invoked StVerify evs = false.
Proof. intros H. walk H; open_contracts; segments; reflexivity. Qed.

Lemma mainLoop_from_never_verifies n fuel :
  forall firstLoop duration (p : Proc W) st p' evs,
    mainLoop_from cfg n fuel firstLoop duration p = (st, p', evs) ->
    invoked StVerify evs = false.
Proof.
  induction n as [|n IH]; intros firstLoop duration p st p' evs H;
    cbn [mainLoop_from] in H.
  - by run_prim H.
  - run_bind H. rewrite invoked_app.
    rewrite (iteration_never_verifies _ _ _ _ _ _ _ R).
    destruct a as [|duration'|]; try (by run_prim H).
    apply (IH _ _ _ _ _ _ H).
Qed.

(** In the constrained mode the loop never lists the containers. *)
Lemma mainLoop_from_containers n fuel :
  forall firstLoop duration (p : Proc W) st p' evs,
    mainLoop_from cfg n fuel firstLoop duration p = (st, p', evs) ->
    under_docker cfg = true ->
    invoked StClearContainers evs = false.
Proof.
  induction n as [|n IH]; intros firstLoop duration p st p' evs H Hu;
    cbn [mainLoop_from] in H.
  - by run_prim H.
  - run_bind H. rewrite invoked_app.
    rewrite (iteration_containers _ _ _ _ _ _ _ R), Hu.
    destruct a as [|duration'|]; try (by run_prim H).
    apply (IH _ _ _ _ _ _ H Hu).
Qed.

(** An iteration entered with [healthy] true, without a fatal failure and
    with a pull and a push that succeed, goes through the whole pipeline. *)
Lemma iteration_clean fuel firstLoop duration (p : Proc W) c p' evs :
  iteration cfg fuel firstLoop duration p = (c, p', evs) ->
  healthy p = true ->
  fatal_failure (under_docker cfg) evs = false ->
  failed StPull evs = false -> failed StPush evs = false ->
  c = Diverge
  \/ (c = Continue (2 * Minute)
      /\ invoked StPush evs = true
      /\ status p' = true
      /\ healthy p' = true
      /\ promSuccessMetric p' = S (promSuccessMetric p)
      /\ promFailureMetric p' = promFailureMetric p
      /\ (exists d, promPullMetric p' = promPullMetric p ++ [d])
      /\ (exists d, promPushMetric p' = promPushMetric p ++ [d])).
Proof.
  intros H. walk H; open_contracts; unfold fatal_failure; segments; flatten;
    try (left; reflexivity);
    try (right; decide_outcomes; eauto; fail);
    decide_outcomes.
Qed.

(** A failed push ends the iteration there. *)
Lemma iteration_push_failed fuel firstLoop duration (p : Proc W) c p' evs :
  iteration cfg fuel firstLoop duration p = (c, p', evs) ->
  failed StPush evs = true ->
  c = Continue (30 * Second)
  /\ status p' = false
  /\ healthy p' = true
  /\ promFailureMetric p' = S (promFailureMetric p)
  /\ promSuccessMetric p' = promSuccessMetric p
  /\ (exists d, promPullMetric p' = promPullMetric p ++ [d])
  /\ promPushMetric p' = promPushMetric p.
Proof. intros H. iteration_cases H; eauto. Qed.

End Loop.

(** The flag is false after every event of a trace that never sets it, when
    it was false before. *)
Lemma healthy_history_false evs :
  healthy_set evs = false -> Forall (eq false) (healthy_history false evs).
Proof.
  induction evs as [|e evs IH]; cbn; [constructor|].
  intros H. apply orb_false_iff in H as [He Hevs].
  destruct e as [| | [|] |]; cbn in *; try discriminate; constructor; auto.
Qed.

(** ** Fuel *)

Section Fuel.
Context {W : Type} {RT : Runtime W} (cfg : Config).

(** A run that stopped is not changed by more fuel. *)
Lemma clearAllImages_loop_more_fuel n :
  forall skip (p : Proc W) r p' evs,
    clearAllImages_loop cfg n skip p = (Some r, p', evs) ->
    clearAllImages_loop cfg (S n) skip p = (Some r, p', evs).
Proof.
  induction n as [|n IH]; intros skip p r p' evs H; [discriminate H|].
  remember (S n) as m eqn:Hm.
  cbn [clearAllImages_loop]. rewrite Hm in H. cbn [clearAllImages_loop] in H.
  unfold bind in *.
  destruct (call StClearImages ListImages client_ListImages p)
    as [[[images|err] q] l]; [|exact H].
  destruct (negb (imagesFound skip images)); [exact H|].
  destruct (removeImages cfg (take 1 images) skip false q)
    as [[[[skip' [|]]|] q'] l']; try exact H.
  cbn [negb] in *.
  destruct (clearAllImages_loop cfg n skip' q') as [[r0 p0] l0] eqn:E.
  injection H as -> -> <-.
  subst m. by rewrite (IH _ _ _ _ _ E).
Qed.

Lemma clearAllImages_loop_fuel_le n m :
  n <= m ->
  forall skip (p : Proc W) r p' evs,
    clearAllImages_loop cfg n skip p = (Some r, p', evs) ->
    clearAllImages_loop cfg m skip p = (Some r, p', evs).
Proof.
  induction 1 as [|m _ IH]; intros skip p r p' evs H; [exact H|].
  by apply clearAllImages_loop_more_fuel, IH.
Qed.

End Fuel.

(** A removal that failed and was preceded by none that failed is the only
    one of the trace, and nothing follows it. *)
Lemma failed_removal_is_last pre0 e0 pre e post :
  pre0 ++ [e0] = pre ++ e :: post ->
  failed_remove pre0 = false -> is_remove_failure e = true ->
  post = [] /\ e = e0.
Proof.
  revert pre. induction pre0 as [|x pre0 IH]; intros pre Heq Hnone He.
  - destruct pre as [|y [|z pre]]; cbn in Heq.
    + by injection Heq as -> <-.
    + discriminate Heq.
    + discriminate Heq.
  - cbn in Hnone. apply orb_false_iff in Hnone as [Hx Hnone].
    destruct pre as [|y pre]; cbn in Heq.
    + injection Heq as -> _. congruence.
    + injection Heq as _ Heq. by apply (IH pre).
Qed.

(** * The claims *)

Section Claims.
Context {W : Type} {RT : Runtime W} (cfg : Config).

Ltac run_of t :=
  let E := fresh "E" in
  destruct t as [[? ?] ?] eqn:E; cbn [result final trace fst snd] in *.

Tactic Notation "run" constr(t) "as" ident(a) ident(q) ident(l) ident(E) :=
  destruct t as [[a q] l] eqn:E; cbn [result final trace fst snd] in *.

(** C1 (the process start).  Both flags are declared without an initialiser,
    so before the first iteration runs they hold false, not true: [/health]
    answers 503 and [/status] answers 400 for any runtime state. *)
Theorem flags_at_process_start (w : W) :
  healthy (start w) = false
  /\ status (start w) = false
  /\ healthHandler (start w) = (503%Z, "false")
  /\ statusHandler (start w) = (400%Z, "false").
Proof. repeat split. Qed.

(** C2 ([healthy] is never true).  No function of the program ever stores
    true in [healthy], from whatever state it runs; so in every execution
    from the process start the flag is false after each event, it is false
    when the loop stands between two iterations or has returned, and
    [/health] answers 503 with the body false. *)
Theorem healthy_is_never_true (n fuel : nat) (w : W) (p : Proc W)
    (firstLoop : bool) (duration : Z) (host : string) :
  healthy_set (trace (verifyDockerClient p)) = false
  /\ healthy_set (trace (newDockerClient cfg host p)) = false
  /\ healthy_set (trace (clearAllContainers p)) = false
  /\ healthy_set (trace (clearAllImages cfg fuel p)) = false
  /\ healthy_set (trace (pullTestImage cfg p)) = false
  /\ healthy_set (trace (deleteTopLayer cfg p)) = false
  /\ healthy_set (trace (createTagLayer cfg p)) = false
  /\ healthy_set (trace (pushTestImage cfg p)) = false
  /\ healthy_set (trace (mainLoop_from cfg n fuel firstLoop duration p)) = false
  /\ (let r := mainLoop cfg n fuel (start w) in
      Forall (eq false) (healthy_history false (trace r))
      /\ healthy (final r) = false
      /\ healthHandler (final r) = (503%Z, "false")).
Proof.
  repeat split.
  - run_of (verifyDockerClient p).
    apply verifyDockerClient_spec in E as (Ho & _).
    by apply only_healthy_set in Ho.
  - run_of (newDockerClient cfg host p).
    apply newDockerClient_spec in E as (Ho & _).
    by apply only_healthy_set in Ho.
  - run_of (clearAllContainers p).
    apply clearAllContainers_spec in E as (Ho & _).
    by apply only_healthy_set in Ho.
  - run_of (clearAllImages cfg fuel p).
    apply clearAllImages_spec in E as (Ho & _).
    by apply only_healthy_set in Ho.
  - run_of (pullTestImage cfg p).
    apply pullTestImage_spec in E as ((Ho & _) & _).
    by apply only_tx_healthy_set in Ho.
  - run_of (deleteTopLayer cfg p).
    apply deleteTopLayer_spec in E as (Ho & _).
    by apply only_healthy_set in Ho.
  - run_of (createTagLayer cfg p).
    apply createTagLayer_spec in E as (Ho & _).
    by apply only_healthy_set in Ho.
  - run_of (pushTestImage cfg p).
    apply pushTestImage_spec in E as ((Ho & _) & _).
    by apply only_tx_healthy_set in Ho.
  - run_of (mainLoop_from cfg n fuel firstLoop duration p).
    by apply mainLoop_from_never_sets in E as (Hs & _).
  - unfold mainLoop. run_of (mainLoop_from cfg n fuel true (2 * Minute) (start w)).
    apply mainLoop_from_never_sets in E as (Hs & _).
    by apply healthy_history_false.
  - unfold mainLoop. run_of (mainLoop_from cfg n fuel true (2 * Minute) (start w)).
    apply mainLoop_from_never_sets in E as (_ & Hh). by apply Hh.
  - unfold mainLoop. run_of (mainLoop_from cfg n fuel true (2 * Minute) (start w)).
    apply mainLoop_from_never_sets in E as (_ & Hh).
    unfold healthHandler. by rewrite Hh.
Qed.

(** C4 ([status] within one iteration).  Every iteration first sleeps
    (except the first one) and then stores true in [status]; after that,
    false is stored in [status] exactly when the pull or the push fails, and
    that is also when the iteration ends with [status] false.  Connecting,
    both cleanups, the deletion of the top layer and the creation of the new
    one write nothing to [status] and leave it as it was. *)
Theorem status_within_iteration (fuel : nat) (firstLoop : bool)
    (duration : Z) (host : string) (p : Proc W) :
  (let r := iteration cfg fuel firstLoop duration p in
   (exists body,
      trace r = sleep_prefix firstLoop duration ++ EvStatus true :: body)
   /\ status_cleared (trace r)
      = failed StPull (trace r) || failed StPush (trace r)
   /\ status (final r)
      = negb (failed StPull (trace r) || failed StPush (trace r)))
  /\ (let r := newDockerClient cfg host p in
      status_written (trace r) = false /\ status (final r) = status p)
  /\ (let r := clearAllContainers p in
      status_written (trace r) = false /\ status (final r) = status p)
  /\ (let r := clearAllImages cfg fuel p in
      status_written (trace r) = false /\ status (final r) = status p)
  /\ (let r := deleteTopLayer cfg p in
      status_written (trace r) = false /\ status (final r) = status p)
  /\ (let r := createTagLayer cfg p in
      status_written (trace r) = false /\ status (final r) = status p).
Proof.
  repeat apply conj; cbv zeta.
  - run_of (iteration cfg fuel firstLoop duration p).
    by apply iteration_shape in E.
  - run_of (iteration cfg fuel firstLoop duration p).
    by apply iteration_status in E as (Hc & _).
  - run_of (iteration cfg fuel firstLoop duration p).
    by apply iteration_status in E as (_ & Hs).
  - run_of (newDockerClient cfg host p).
    apply newDockerClient_spec in E as (Ho & _).
    by apply only_status_written in Ho.
  - run_of (newDockerClient cfg host p).
    by apply newDockerClient_spec in E as (_ & _ & Hs & _).
  - run_of (clearAllContainers p).
    apply clearAllContainers_spec in E as (Ho & _).
    by apply only_status_written in Ho.
  - run_of (clearAllContainers p).
    by apply clearAllContainers_spec in E as (_ & _ & Hs & _).
  - run_of (clearAllImages cfg fuel p).
    apply clearAllImages_spec in E as (Ho & _).
    by apply only_status_written in Ho.
  - run_of (clearAllImages cfg fuel p).
    by apply clearAllImages_spec in E as (_ & _ & Hs & _).
  - run_of (deleteTopLayer cfg p).
    apply deleteTopLayer_spec in E as (Ho & _).
    by apply only_status_written in Ho.
  - run_of (deleteTopLayer cfg p).
    by apply deleteTopLayer_spec in E as (_ & _ & Hs & _).
  - run_of (createTagLayer cfg p).
    apply createTagLayer_spec in E as (Ho & _).
    by apply only_status_written in Ho.
  - run_of (createTagLayer cfg p).
    by apply createTagLayer_spec in E as (_ & _ & Hs & _).
Qed.


(** [healthy] within one iteration, from any state.  After an iteration
    [healthy] is what it was before, unless a fatal failure occurred: a
    failure to connect, of container cleanup, of the image enumeration (in
    either mode), of an image removal outside the constrained mode, of the
    deletion of the top layer or of the creation or commit of the new one.
    So it remains true when it was true and none of them failed; and after
    one of them it is false, the loop returns without running another
    iteration, and nothing run from that state makes it true again. *)
Theorem healthy_within_iteration (n fuel : nat) (firstLoop : bool)
    (duration : Z) (p : Proc W) :
  let r := iteration cfg fuel firstLoop duration p in
  healthy (final r)
  = healthy p && negb (fatal_failure (under_docker cfg) (trace r))
  /\ (healthy p = true ->
      fatal_failure (under_docker cfg) (trace r) = false ->
      healthy (final r) = true)
  /\ (fatal_failure (under_docker cfg) (trace r) = true ->
      healthy (final r) = false
      /\ result r = Return
      /\ mainLoop_from cfg (S n) fuel firstLoop duration p
         = (Returned, final r, trace r)
      /\ forall n' fuel' firstLoop' duration',
           healthy
             (final (mainLoop_from cfg n' fuel' firstLoop' duration' (final r)))
           = false).
Proof.
  cbv zeta. run (iteration cfg fuel firstLoop duration p) as c p' evs E.
  destruct (iteration_healthy _ _ _ _ _ _ _ _ E) as (Hh & Hr).
  split; [exact Hh|]. split.
  - intros Hp Hf. by rewrite Hh, Hp, Hf.
  - intros Hf. specialize (Hr Hf). subst c.
    assert (Hp' : healthy p' = false) by (by rewrite Hh, Hf, andb_false_r).
    repeat split; auto.
    + by apply mainLoop_from_returns.
    + intros n' fuel' firstLoop' duration'.
      run_of (mainLoop_from cfg n' fuel' firstLoop' duration' p').
      apply mainLoop_from_never_sets in E0 as (_ & Hkeep). by apply Hkeep.
Qed.

(** C10, as amended (a refused image removal).  In the constrained mode a
    removal that fails during a run of image cleanup is not fatal: the run
    reports success and leaves [healthy] as it was, and the iteration is not
    ended by it, the pull is made.  The image is then a key of the run's skip
    map, and no removal of it is attempted in what is left of that run.  The
    skip map of a run starts empty.  Outside the constrained mode the run
    reports failure with [healthy] false and the iteration makes the loop
    return. *)
Theorem removal_failure_policy (fuel : nat) (firstLoop : bool)
    (duration : Z) (skip : gmap string bool) (p : Proc W) :
  let r := clearAllImages_loop cfg fuel skip p in
  failed_remove (trace r) = true ->
  (if under_docker cfg then
     healthy (final r) = healthy p
     /\ (exists skip', result r = Some (true, skip'))
     /\ (forall pre id post,
           trace r
           = pre ++ EvCall StClearImages (RemoveImage id) false :: post ->
           attempts_on id post = 0
           /\ exists skip',
                result r = Some (true, skip') /\ toSkip skip' id = true)
   else
     (exists skip', result r = Some (false, skip'))
     /\ healthy (final r) = false)
  /\ clearAllImages cfg fuel p
     = (fst <$> result (clearAllImages_loop cfg fuel ∅ p),
        final (clearAllImages_loop cfg fuel ∅ p),
        trace (clearAllImages_loop cfg fuel ∅ p))
  /\ (let i := iteration cfg fuel firstLoop duration p in
      failed_remove (trace i) = true ->
      if under_docker cfg then invoked StPull (trace i) = true
      else result i = Return /\ healthy (final i) = false).
Proof.
  cbv zeta.
  destruct (clearAllImages_loop cfg fuel skip p) as [[r p'] evs] eqn:E;
    cbn [result final trace fst snd] in *.
  intros Hfail. apply clearAllImages_loop_Cleanup in E as HC.
  destruct (Cleanup_healthy _ _ _ _ _ _ _ HC) as (Hh & Hf & _).
  unfold images_fatal in *.
  repeat apply conj.
  - destruct (under_docker cfg) eqn:Hu.
    + destruct (Cleanup_refused _ _ _ _ _ _ _ HC Hu Hfail)
        as (pre0 & id0 & -> & Hpre & Hlist & _ & ->).
      split; [|split; [eauto|]].
      * rewrite Hh, failed_list_app, Hlist. cbn. by rewrite andb_true_r.
      * intros pre id post Heq.
        destruct (failed_removal_is_last _ _ _ _ _ Heq Hpre eq_refl)
          as (-> & [= ->]).
        split; [reflexivity|]. eexists. split; [reflexivity|].
        unfold toSkip. by rewrite lookup_insert_eq.
    + rewrite Hfail in *. cbn in *. rewrite orb_true_r in *.
      split; [by apply Hf|]. by rewrite Hh, andb_false_r.
  - unfold clearAllImages, bind, ret.
    destruct (clearAllImages_loop cfg fuel ∅ p) as [[r0 q0] l0]. cbn.
    by rewrite app_nil_r.
  - destruct (iteration cfg fuel firstLoop duration p) as [[c q] l] eqn:Ei;
      cbn [result final trace fst snd] in *.
    intros Hrm. destruct (under_docker cfg) eqn:Hu.
    + by apply (iteration_refused _ _ _ _ _ _ _ _ Ei).
    + destruct (iteration_healthy _ _ _ _ _ _ _ _ Ei) as (Hq & Hr).
      unfold fatal_failure in *. rewrite Hu, Hrm in *. cbn in *.
      rewrite !orb_true_r in *. cbn in *.
      split; [by apply Hr|]. by rewrite Hq, andb_false_r.
Qed.

(** A consequence of C1 and C2 for the whole program: from the process
    start, whatever the runtime does and however long the loop runs, no layer
    is ever created, nothing is ever pushed, and neither the success counter
    nor the push summary ever receives anything. *)
Theorem success_is_never_recorded (n fuel : nat) (w : W) :
  let r := mainLoop cfg n fuel (start w) in
  promSuccessMetric (final r) = 0
  /\ promPushMetric (final r) = []
  /\ invoked StCreateTagLayer (trace r) = false
  /\ invoked StPush (trace r) = false.
Proof.
  cbv zeta. unfold mainLoop.
  run (mainLoop_from cfg n fuel true (2 * Minute) (start w)) as st p' evs E.
  by apply mainLoop_from_unhealthy in E.
Qed.

(** The deletion step on a history in which no layer carries the tag: the
    history is the only call, nothing is removed, both flags stay as they
    were, and the step reports the current value of [healthy]. *)
Theorem deleteTopLayer_without_tag (p : Proc W)
    (imageHistory : list ImageHistory) (w' : W) :
  client_ImageHistory (repository cfg) (world p) = (Ok imageHistory, w') ->
  Forall (fun image => stringInSlice "latest" (Tags image) = false)
    imageHistory ->
  let r := deleteTopLayer cfg p in
  result r = healthy p
  /\ trace r = [EvCall StDeleteTopLayer ImageHistoryOf true]
  /\ healthy (final r) = healthy p
  /\ status (final r) = status p
  /\ world (final r) = w'.
Proof.
  intros Hcall Hnone. cbv zeta.
  assert (Hrange : forall q : Proc W,
             deleteTopLayer_range imageHistory q = (healthy q, q, [])).
  { clear Hcall.
    induction Hnone as [|image rest Himage _ IH]; intros q;
      cbn [deleteTopLayer_range]; [reflexivity|].
    rewrite Himage. apply IH. }
  unfold deleteTopLayer, bind, call. rewrite Hcall, Hrange. cbn.
  repeat split.
Qed.

(** An error in the deletion step is fatal: the step reports false with
    [healthy] false, and an iteration in which it happens makes the loop
    return. *)
Theorem deleteTopLayer_failure_is_fatal (fuel : nat) (firstLoop : bool)
    (duration : Z) (p : Proc W) :
  (let r := deleteTopLayer cfg p in
   failed StDeleteTopLayer (trace r) = true ->
   result r = false /\ healthy (final r) = false)
  /\ (let r := iteration cfg fuel firstLoop duration p in
      failed StDeleteTopLayer (trace r) = true ->
      result r = Return /\ healthy (final r) = false).
Proof.
  split; cbv zeta.
  - run (deleteTopLayer cfg p) as b p' evs E. intros Hf.
    apply deleteTopLayer_spec in E as (_ & _ & _ & Hh & ->).
    rewrite Hh, Hf, andb_false_r. by split.
  - run (iteration cfg fuel firstLoop duration p) as c p' evs E. intros Hf.
    destruct (iteration_healthy _ _ _ _ _ _ _ _ E) as (Hh & Hr).
    unfold fatal_failure in *. rewrite Hf in *.
    rewrite !orb_true_r in *. cbn in *.
    split; [by apply Hr|]. by rewrite Hh, andb_false_r.
Qed.

(** An iteration whose push succeeds ends with both flags true, one success
    recorded, one observation more in each summary, and a sleep of two
    minutes before the next one. *)
Theorem push_success_iteration (fuel : nat) (firstLoop : bool)
    (duration : Z) (p : Proc W) :
  let r := iteration cfg fuel firstLoop duration p in
  invoked StPush (trace r) = true ->
  failed StPush (trace r) = false ->
  result r = Continue (2 * Minute)
  /\ status (final r) = true
  /\ healthy (final r) = true
  /\ promSuccessMetric (final r) = S (promSuccessMetric p)
  /\ promFailureMetric (final r) = promFailureMetric p
  /\ (exists d, promPullMetric (final r) = promPullMetric p ++ [d])
  /\ (exists d, promPushMetric (final r) = promPushMetric p ++ [d]).
Proof.
  cbv zeta. run (iteration cfg fuel firstLoop duration p) as c p' evs E.
  intros Hi Hf. by apply (iteration_pushed _ _ _ _ _ _ _ _ E).
Qed.

End Claims.

(** ** Termination of image cleanup *)

Section Termination.
Context {W : Type} {RT : Runtime W} (cfg : Config).

(** What is assumed of the runtime: some measure of its state (the number of
    images it holds) does not grow when the images are listed and shrinks
    when a removal succeeds. *)
Variable size : W -> nat.
Hypothesis list_keeps :
  forall w r w', client_ListImages w = (r, w') -> size w' <= size w.
Hypothesis remove_shrinks :
  forall id w u w', client_RemoveImage id w = (Ok u, w') -> size w' < size w.

Lemma Cleanup_removals_bound fuel skip p r p' evs :
  Cleanup cfg fuel skip p r p' evs -> removals evs <= size (world p).
Proof.
  induction 1 as
    [ | | | | fuel skip p q q' image images u r p' evs Hl Hq Ht Hr Hq' HC IH | | ];
    cbn; try lia.
  apply list_keeps in Hl. apply remove_shrinks in Hr.
  unfold removals in *. lia.
Qed.

Lemma Cleanup_terminates fuel skip p r p' evs :
  Cleanup cfg fuel skip p r p' evs -> size (world p) < fuel -> r <> None.
Proof.
  induction 1 as
    [ | | | | fuel skip p q q' image images u r p' evs Hl Hq Ht Hr Hq' HC IH | | ];
    intros Hlt; try discriminate; try lia.
  apply IH. apply list_keeps in Hl. apply remove_shrinks in Hr. lia.
Qed.

(** C9 (image cleanup terminates).  For any runtime, a run of image cleanup
    that has stopped made exactly one pass more than it removed images, its
    last pass removing none; and it can only still be running after [fuel]
    passes if every one of them removed an image.  For a runtime whose
    successful removals shrink it, cleanup stops from every state, within
    one pass more than the state's size, whether removals fail or not; and
    a larger bound on the passes gives the same run. *)
Theorem clearAllImages_terminates (fuel : nat) (p : Proc W) :
  let r := clearAllImages cfg fuel p in
  match result r with
  | Some _ => passes (trace r) = S (removals (trace r))
  | None => passes (trace r) = fuel /\ removals (trace r) = fuel
  end
  /\ (size (world p) < fuel ->
      (exists b, result r = Some b)
      /\ passes (trace r) <= S (size (world p))
      /\ forall fuel', fuel <= fuel' -> clearAllImages cfg fuel' p = r).
Proof.
  cbv zeta. unfold clearAllImages, bind, ret.
  destruct (clearAllImages_loop cfg fuel ∅ p) as [[r p'] evs] eqn:E.
  cbn [result final trace fst snd]. rewrite app_nil_r.
  apply clearAllImages_loop_Cleanup in E as HC.
  pose proof (Cleanup_passes _ _ _ _ _ _ _ HC) as Hp.
  pose proof (Cleanup_removals_bound _ _ _ _ _ _ HC) as Hb.
  split.
  - destruct r as [[b skip']|]; cbn; tauto.
  - intros Hlt. pose proof (Cleanup_terminates _ _ _ _ _ _ HC Hlt) as Hr.
    destruct r as [[b skip']|]; [|congruence]. cbn.
    split; [eauto|]. split; [destruct Hp as (Hp & _); lia|].
    intros fuel' Hle.
    rewrite (clearAllImages_loop_fuel_le cfg _ _ Hle _ _ _ _ _ E).
    by rewrite app_nil_r.
Qed.

End Termination.

(** * Further properties of the code *)

(** ** Helpers and start-up *)

(** [stringInSlice] is membership in the slice: exact, case-sensitive
    equality with one of its elements; so nothing is in the empty slice, and
    a name is in two slices put together when it is in one of them. *)
Theorem stringInSlice_membership (value : string) (l l' : list string) :
  (stringInSlice value l = true <-> In value l)
  /\ stringInSlice value [] = false
  /\ stringInSlice value (l ++ l')
     = stringInSlice value l || stringInSlice value l'.
Proof.
  split; [|split; [reflexivity|]].
  - induction l as [|current l IH]; cbn; [by split|].
    destruct (String.eqb_spec current value) as [->|Hne].
    + split; auto.
    + rewrite IH. split; [auto|]. by intros [?|?].
  - induction l as [|current l IH]; cbn; [reflexivity|].
    destruct (String.eqb current value); auto.
Qed.

(** The constrained mode is switched on by the four letters of the word
    true in the variable UNDER_DOCKER, each in either case, and by no other
    value. *)
Theorem under_docker_values (cfg : Config) :
  under_docker cfg = true <->
  exists c1 c2 c3 c4 : ascii,
    Getenv cfg "UNDER_DOCKER" = String c1 (String c2 (String c3 (String c4 "")))
    /\ (c1 = "t" \/ c1 = "T")%char /\ (c2 = "r" \/ c2 = "R")%char
    /\ (c3 = "u" \/ c3 = "U")%char /\ (c4 = "e" \/ c4 = "E")%char.
Proof.
  unfold under_docker. rewrite String.eqb_eq.
  destruct (Getenv cfg "UNDER_DOCKER") as [|c1 [|c2 [|c3 [|c4 [|c5 s]]]]];
    cbn [strings_ToLower].
  1-4: split; [discriminate | intros (? & ? & ? & ? & ? & _); discriminate].
  2: split; [discriminate | intros (? & ? & ? & ? & ? & _); discriminate].
  split.
  - intros [= H1 H2 H3 H4]. exists c1, c2, c3, c4. split; [reflexivity|].
    apply (ascii_ToLower_letter c1 "t" "T") in H1; [|cbn; lia|reflexivity].
    apply (ascii_ToLower_letter c2 "r" "R") in H2; [|cbn; lia|reflexivity].
    apply (ascii_ToLower_letter c3 "u" "U") in H3; [|cbn; lia|reflexivity].
    apply (ascii_ToLower_letter c4 "e" "E") in H4; [|cbn; lia|reflexivity].
    tauto.
  - intros (d1 & d2 & d3 & d4 & [= -> -> -> ->] & H1 & H2 & H3 & H4).
    apply (ascii_ToLower_letter d1 "t" "T") in H1; [|cbn; lia|reflexivity].
    apply (ascii_ToLower_letter d2 "r" "R") in H2; [|cbn; lia|reflexivity].
    apply (ascii_ToLower_letter d3 "u" "U") in H3; [|cbn; lia|reflexivity].
    apply (ascii_ToLower_letter d4 "e" "E") in H4; [|cbn; lia|reflexivity].
    by rewrite H1, H2, H3, H4.
Qed.

(** The first inner loop of [clearAllImages] finds an image exactly when
    some listed image is not a key of the skip map; with the empty map, when
    the list is not empty. *)
Theorem imagesFound_spec (skip : gmap string bool) (images : list APIImages) :
  (imagesFound skip images = true <->
   exists image, In image images /\ skip !! ImageID image = None)
  /\ imagesFound ∅ images = negb (bool_decide (images = [])).
Proof.
  unfold imagesFound. rewrite !imagesFound_existsb. cbn. split.
  - rewrite existsb_exists. unfold toSkip.
    split; intros (image & Hin & Hs); exists image; (split; [assumption|]);
      destruct (skip !! ImageID image); cbn in *; congruence.
  - destruct images as [|image images]; [reflexivity|].
    cbn. unfold toSkip at 1. by rewrite lookup_empty.
Qed.

(** [LoggingWriter.Write] accepts everything: it reports all the bytes it
    was given as written and no error, and the line it logs holds these
    bytes. *)
Theorem LoggingWriter_Write_accepts_all (p : list Byte.byte) :
  let '(line, (n, err)) := LoggingWriter_Write p in
  n = length p /\ err = None /\ list_byte_of_string line = p.
Proof.
  unfold LoggingWriter_Write. repeat split.
  - apply string_of_list_byte_length.
  - apply list_byte_of_string_of_list_byte.
Qed.

Lemma register_metrics_all env metrics :
  let '(l, ok) := register_metrics env metrics in
  (ok = true
   <-> Forall (fun m => is_ok (prometheus_Register env m) = true) metrics)
  /\ (ok = true -> l = map Registered metrics)
  /\ ~ In go_mainLoop l.
Proof.
  induction metrics as [|metric metrics IH]; cbn [register_metrics].
  - repeat split; auto.
  - destruct (prometheus_Register env metric) as [u|err] eqn:E.
    + destruct (register_metrics env metrics) as [l ok].
      destruct IH as (IH1 & IH2 & IH3). repeat split.
      * intros Hok. constructor; [by rewrite E|by apply IH1].
      * intros Hall. apply IH1. by inversion Hall.
      * intros Hok. cbn. by rewrite IH2.
      * intros [Hin|Hin]; [discriminate|]. by apply IH3.
    + repeat split; try discriminate.
      * intros Hall. inversion Hall as [|? ? Hm _]. rewrite E in Hm.
        discriminate.
      * intros [Hin|[]]. discriminate.
Qed.

(** [main] starts the probe loop exactly when the command line, the
    environment and the log level were read, the five required flags are not
    empty and the four collectors were registered.  It then has set the log
    level, registered the collectors in the order of the slice and installed
    the three handlers before it starts the loop, and it serves after that. *)
Theorem main_starts_monitor (env : Startup) (cfg : Config)
    (listen level : string) :
  (In go_mainLoop (main env cfg listen level) <->
     is_ok (flag_Parse env) = true
     /\ is_ok (flagutil_SetFlagsFromEnv env) = true
     /\ is_ok (log_ParseLevel env level) = true
     /\ dockerUsername cfg <> "" /\ dockerPassword cfg <> ""
     /\ registryHost cfg <> "" /\ repository cfg <> "" /\ baseLayer cfg <> ""
     /\ Forall (fun m => is_ok (prometheus_Register env m) = true)
          prometheusMetrics)
  /\ (In go_mainLoop (main env cfg listen level) ->
      exists lvl tail,
        main env cfg listen level
        = log_SetLevel lvl
          :: map Registered prometheusMetrics
          ++ [ http_Handle "/metrics"; http_Handle "/health";
               http_Handle "/status"; log_Infoln ("Listening on " +:+ listen);
               go_mainLoop; Serving listen ]
          ++ tail
        /\ (tail = [] \/ exists err, tail = [log_Fatal err])).
Proof.
  unfold main.
  pose proof (register_metrics_all env prometheusMetrics) as Hreg.
  destruct (flag_Parse env) as [u|err]; cbn [is_ok].
  2: { split; [split|]; [intros [?|[?|[]]]; discriminate | by intros (? & _)
                        | intros [?|[?|[]]]; discriminate]. }
  destruct (flagutil_SetFlagsFromEnv env) as [u'|err]; cbn [is_ok].
  2: { split; [split|]; [intros [?|[?|[]]]; discriminate | by intros (? & ? & _)
                        | intros [?|[?|[]]]; discriminate]. }
  destruct (log_ParseLevel env level) as [lvl|err]; cbn [is_ok].
  2: { split; [split|]; [intros [?|[?|[]]]; discriminate
                        | by intros (? & ? & ? & _)
                        | intros [?|[?|[]]]; discriminate]. }
  destruct (String.eqb_spec (dockerUsername cfg) "") as [E1|E1].
  { split; [split|]; [intros [?|[?|[]]]; discriminate | tauto
                     | intros [?|[?|[]]]; discriminate]. }
  destruct (String.eqb_spec (dockerPassword cfg) "") as [E2|E2].
  { split; [split|]; [intros [?|[?|[]]]; discriminate | tauto
                     | intros [?|[?|[]]]; discriminate]. }
  destruct (String.eqb_spec (registryHost cfg) "") as [E3|E3].
  { split; [split|]; [intros [?|[?|[]]]; discriminate | tauto
                     | intros [?|[?|[]]]; discriminate]. }
  destruct (String.eqb_spec (repository cfg) "") as [E4|E4].
  { split; [split|]; [intros [?|[?|[]]]; discriminate | tauto
                     | intros [?|[?|[]]]; discriminate]. }
  destruct (String.eqb_spec (baseLayer cfg) "") as [E5|E5].
  { split; [split|]; [intros [?|[?|[]]]; discriminate | tauto
                     | intros [?|[?|[]]]; discriminate]. }
  destruct (register_metrics env prometheusMetrics) as [l ok].
  destruct Hreg as (Hiff & Hl & Hno).
  destruct ok; cbn [negb].
  - rewrite (Hl eq_refl). split; [split|].
    + intros _. repeat split; auto. by apply Hiff.
    + intros _. right. apply in_or_app. right. cbn. tauto.
    + intros _. exists lvl.
      destruct (http_ListenAndServe env listen) as [err|];
        eexists; (split; [reflexivity|]); eauto.
  - rewrite app_nil_r. split; [split|].
    + intros [?|Hin]; [discriminate|]. by destruct (Hno Hin).
    + intros (_ & _ & _ & _ & _ & _ & _ & _ & Hall).
      apply Hiff in Hall. discriminate.
    + intros [?|Hin]; [discriminate|]. by destruct (Hno Hin).
Qed.

(** The early exits of [main] once the command line and the environment
    have been read.  A log level that cannot be parsed is printed and nothing
    else is done.  Otherwise, when a required flag is empty, [main] only sets
    the log level and reports the first empty one in the order username,
    password, registry host, repository, base layer; when none is empty the
    next thing it does is to register the first collector. *)
Theorem main_reports_first_missing_flag (env : Startup) (cfg : Config)
    (listen level : string) :
  is_ok (flag_Parse env) = true ->
  is_ok (flagutil_SetFlagsFromEnv env) = true ->
  let required :=
    [ (dockerUsername cfg, "Missing username flag");
      (dockerPassword cfg, "Missing password flag");
      (registryHost cfg, "Missing registryHost flag");
      (repository cfg, "Missing repository flag");
      (baseLayer cfg, "Missing baseLayerId flag") ] in
  match log_ParseLevel env level with
  | Err err => main env cfg listen level = [Fprintln_Stderr err; os_Exit 1]
  | Ok lvl =>
      match List.find (fun flag => String.eqb (fst flag) "") required with
      | Some flag =>
          main env cfg listen level = [log_SetLevel lvl; log_Fatal (snd flag)]
      | None =>
          exists rest,
            main env cfg listen level = log_SetLevel lvl :: rest
            /\ ((exists err,
                   rest = [log_Fatal ("Failed to register metric: " +:+ err)])
                \/ hd_error rest = Some (Registered SuccessCounter))
      end
  end.
Proof.
  intros Hparse Henv. cbv zeta. unfold main.
  destruct (flag_Parse env) as [u|err]; [|discriminate Hparse].
  destruct (flagutil_SetFlagsFromEnv env) as [u'|err]; [|discriminate Henv].
  destruct (log_ParseLevel env level) as [lvl|err]; [|reflexivity].
  cbn [List.find fst snd].
  destruct (String.eqb (dockerUsername cfg) ""); [reflexivity|].
  destruct (String.eqb (dockerPassword cfg) ""); [reflexivity|].
  destruct (String.eqb (registryHost cfg) ""); [reflexivity|].
  destruct (String.eqb (repository cfg) ""); [reflexivity|].
  destruct (String.eqb (baseLayer cfg) ""); [reflexivity|].
  eexists. split; [reflexivity|].
  unfold prometheusMetrics. cbn [register_metrics].
  destruct (prometheus_Register env SuccessCounter) as [u1|err];
    [|by left; eexists].
  right. destruct (prometheus_Register env FailureCounter);
    [destruct (prometheus_Register env PullSummary);
     [destruct (prometheus_Register env PushSummary)|]|]; reflexivity.
Qed.

Section Further.
Context {W : Type} {RT : Runtime W} (cfg : Config).

(** ** The steps *)

(** [newDockerClient] parses the host and creates the client, and loads the
    CA file and the key pair after that only when DOCKER_CERT_PATH is set.
    It stops at the first call that fails and returns its error; it returns
    a client exactly when every call of the plan succeeded.  Neither flag is
    touched. *)
Theorem newDockerClient_calls (host : string) (p : Proc W) :
  let r := newDockerClient cfg host p in
  let plan :=
    if String.eqb (Getenv cfg "DOCKER_CERT_PATH") "" then [UrlParse; NewClient]
    else [UrlParse; NewClient; ReadFile; LoadX509KeyPair] in
  ((is_ok (result r) = true /\ trace r = map connect_ok plan)
   \/ (exists done c rest,
         plan = done ++ c :: rest
         /\ is_ok (result r) = false
         /\ trace r = map connect_ok done ++ [EvCall StConnect c false]))
  /\ healthy (final r) = healthy p
  /\ status (final r) = status p.
Proof.
  cbv zeta. unfold newDockerClient, buildTLSTransport, bind, call, ret.
  destruct (url_Parse host (world p)) as [[u|err] w]; cbn.
  2: { destruct (String.eqb _ "");
         (split; [right; eexists [], _, _|]; repeat split). }
  destruct (String.eqb (Getenv cfg "DOCKER_CERT_PATH") "") eqn:Ecert; cbn.
  - destruct (docker_NewClient host false w) as [[u'|err] w1]; cbn.
    + split; [left|]; repeat split.
    + split; [right; eexists [_], _, _|]; repeat split.
  - destruct (docker_NewClient host true w) as [[u'|err] w1]; cbn.
    2: { split; [right; eexists [_], _, _|]; repeat split. }
    destruct (ioutil_ReadFile _ w1) as [[u1|err] w2]; cbn.
    2: { split; [right; eexists [_; _], _, _|]; repeat split. }
    destruct (tls_LoadX509KeyPair _ _ w2) as [[u2|err] w3]; cbn.
    + split; [left|]; repeat split.
    + split; [right; eexists [_; _; _], _, _|]; repeat split.
Qed.

Lemma clearAllContainers_range_trace containers : forall p : Proc W,
  let r := clearAllContainers_range containers p in
  let targets :=
    map ContainerID
      (List.filter (fun c => negb (stringInSlice "monitor" (Names c)))
         containers) in
  (trace r = map (rm_container true) targets
   /\ result r = healthy p /\ healthy (final r) = healthy p)
  \/ (exists done id rest,
        targets = done ++ id :: rest
        /\ trace r = map (rm_container true) done
                     ++ [rm_container false id; EvHealthy false]
        /\ result r = false /\ healthy (final r) = false).
Proof.
  induction containers as [|container containers IH]; intros p; cbv zeta;
    cbn [clearAllContainers_range List.filter].
  - left. repeat split.
  - destruct (stringInSlice "monitor" (Names container)); cbn [negb]; [apply IH|].
    cbn [map]. unfold bind, call.
    destruct (client_RemoveContainer (ContainerID container) (world p))
      as [[u|err] w].
    + match goal with
      | |- context [clearAllContainers_range containers ?q] =>
          specialize (IH q); cbv zeta in IH;
          destruct (clearAllContainers_range containers q) as [[b p'] evs]
      end.
      cbn [result final trace fst snd healthy is_ok app] in *.
      destruct IH as [(Ht & Hr & Hh) | (done & id & rest & Ht & Hl & Hr & Hh)].
      * left. subst. repeat split. assumption.
      * right. exists (ContainerID container :: done), id, rest.
        rewrite Ht, Hl. repeat split; assumption.
    + right. eexists [], (ContainerID container), _. cbn. repeat split.
Qed.

(** [clearAllContainers] lists the containers and then removes, in the order
    of the listing, those that have no name equal to monitor, up to the first
    removal that fails; a container with such a name is never removed.  When
    the listing fails nothing is removed.  When every call succeeded it
    returns the value of [healthy], which it has left alone; after a failure
    it returns false with [healthy] false. *)
Theorem clearAllContainers_spares_monitor (p : Proc W) :
  let r := clearAllContainers p in
  match fst (client_ListContainers (world p)) with
  | Err _ =>
      trace r = [EvCall StClearContainers ListContainers false; EvHealthy false]
      /\ result r = false /\ healthy (final r) = false
  | Ok containers =>
      let targets :=
        map ContainerID
          (List.filter (fun c => negb (stringInSlice "monitor" (Names c)))
             containers) in
      (trace r = EvCall StClearContainers ListContainers true
                 :: map (rm_container true) targets
       /\ result r = healthy p /\ healthy (final r) = healthy p)
      \/ (exists done id rest,
            targets = done ++ id :: rest
            /\ trace r = EvCall StClearContainers ListContainers true
                         :: map (rm_container true) done
                         ++ [rm_container false id; EvHealthy false]
            /\ result r = false /\ healthy (final r) = false)
  end.
Proof.
  cbv zeta. unfold clearAllContainers, bind, call.
  destruct (client_ListContainers (world p)) as [[containers|err] w];
    cbn [fst]; [|by repeat split].
  match goal with
  | |- context [clearAllContainers_range containers ?q] =>
      pose proof (clearAllContainers_range_trace containers q) as H;
      cbv zeta in H;
      destruct (clearAllContainers_range containers q) as [[b p'] evs]
  end.
  cbn [result final trace fst snd healthy is_ok app] in *.
  destruct H as [(Ht & Hr & Hh) | (done & id & rest & Ht & Hl & Hr & Hh)].
  - left. subst. by repeat split.
  - right. exists done, id, rest. rewrite Hl. by repeat split.
Qed.

Lemma deleteTopLayer_range_trace imageHistory : forall p : Proc W,
  let r := deleteTopLayer_range imageHistory p in
  match List.find (fun image => stringInSlice "latest" (Tags image))
          imageHistory with
  | None => trace r = [] /\ result r = healthy p /\ final r = p
  | Some image =>
      exists ok,
        trace r = EvCall StDeleteTopLayer (RemoveImage (HistoryID image)) ok
                  :: (if ok then [] else [EvHealthy false])
        /\ result r = ok && healthy p
        /\ healthy (final r) = ok && healthy p
  end.
Proof.
  induction imageHistory as [|image imageHistory IH]; intros p; cbv zeta;
    cbn [deleteTopLayer_range List.find].
  - by repeat split.
  - destruct (stringInSlice "latest" (Tags image)); [|apply IH].
    unfold bind, call.
    destruct (client_RemoveImage (HistoryID image) (world p)) as [[u|err] w];
      [exists true | exists false]; by repeat split.
Qed.

(** [deleteTopLayer] attempts at most one removal: that of the first entry
    of the history that carries the tag latest; the entries after it are left
    alone, tagged or not.  Without such an entry, or when the removal
    succeeded, it returns the value of [healthy]; when the history cannot be
    read or the removal fails it returns false with [healthy] false. *)
Theorem deleteTopLayer_removes_first_tagged (p : Proc W) :
  let r := deleteTopLayer cfg p in
  match fst (client_ImageHistory (repository cfg) (world p)) with
  | Err _ =>
      trace r = [EvCall StDeleteTopLayer ImageHistoryOf false; EvHealthy false]
      /\ result r = false /\ healthy (final r) = false
  | Ok imageHistory =>
      match List.find (fun image => stringInSlice "latest" (Tags image))
              imageHistory with
      | None =>
          trace r = [EvCall StDeleteTopLayer ImageHistoryOf true]
          /\ result r = healthy p /\ healthy (final r) = healthy p
      | Some image =>
          exists ok,
            trace r = EvCall StDeleteTopLayer ImageHistoryOf true
                      :: EvCall StDeleteTopLayer (RemoveImage (HistoryID image)) ok
                      :: (if ok then [] else [EvHealthy false])
            /\ result r = ok && healthy p
            /\ healthy (final r) = ok && healthy p
      end
  end.
Proof.
  cbv zeta. unfold deleteTopLayer, bind, call.
  destruct (client_ImageHistory (repository cfg) (world p))
    as [[imageHistory|err] w]; cbn [fst]; [|by repeat split].
  match goal with
  | |- context [deleteTopLayer_range imageHistory ?q] =>
      pose proof (deleteTopLayer_range_trace imageHistory q) as H;
      cbv zeta in H;
      destruct (deleteTopLayer_range imageHistory q) as [[b p'] evs]
  end.
  cbn [result final trace fst snd healthy is_ok app] in *.
  destruct (List.find _ imageHistory) as [image|].
  - destruct H as (ok & -> & -> & ->). exists ok. by repeat split.
  - destruct H as (-> & -> & ->). by repeat split.
Qed.

(** [createTagLayer] creates the container and commits it only after that
    succeeded; it makes no other call and no second attempt.  After both
    calls succeeded it returns the value of [healthy]; after a failure it
    returns false with [healthy] false. *)
Theorem createTagLayer_commits_after_create (p : Proc W) :
  let r := createTagLayer cfg p in
  (trace r = [ EvCall StCreateTagLayer CreateContainer true;
               EvCall StCreateTagLayer CommitContainer true ]
   /\ result r = healthy p /\ healthy (final r) = healthy p)
  \/ (trace r = [ EvCall StCreateTagLayer CreateContainer true;
                  EvCall StCreateTagLayer CommitContainer false;
                  EvHealthy false ]
      /\ result r = false /\ healthy (final r) = false)
  \/ (trace r = [ EvCall StCreateTagLayer CreateContainer false;
                  EvHealthy false ]
      /\ result r = false /\ healthy (final r) = false).
Proof.
  cbv zeta. unfold createTagLayer, bind, call, now.
  destruct (time_Now (world p)) as [t w]. cbn.
  destruct (client_CreateContainer _ _ _ w) as [[u|err] w1]; cbn.
  - destruct (client_CommitContainer _ _ _ w1) as [[u'|err] w2]; cbn.
    + left. by repeat split.
    + right. left. by repeat split.
  - right. right. by repeat split.
Qed.

(** [verifyDockerClient] returns the outcome of the ping, whatever the value
    of [healthy] is, and clears [healthy] when the ping fails.  The probe
    loop never runs it: no run of the loop pings the daemon. *)
Theorem verifyDockerClient_is_never_run (n fuel : nat) (firstLoop : bool)
    (duration : Z) (p q : Proc W) :
  (let r := verifyDockerClient p in
   result r = is_ok (fst (client_Ping (world p)))
   /\ healthy (final r) = healthy p && result r
   /\ status (final r) = status p
   /\ trace r = EvCall StVerify Ping (result r)
                :: (if result r then [] else [EvHealthy false]))
  /\ invoked StVerify (trace (mainLoop_from cfg n fuel firstLoop duration q))
     = false.
Proof.
  split; cbv zeta.
  - unfold verifyDockerClient, bind, call.
    destruct (client_Ping (world p)) as [[u|err] w]; cbn;
      rewrite ?andb_true_r, ?andb_false_r; by repeat split.
  - destruct (mainLoop_from cfg n fuel firstLoop duration q) as [[st q'] evs] eqn:E.
    cbn [trace snd]. by apply mainLoop_from_never_verifies in E.
Qed.

(** Image cleanup reports success in two cases only.  Either [healthy] was
    true, every call succeeded and the last enumeration listed no image; or
    the mode is the constrained one and the last call is a removal that
    failed, whatever other images the runtime still lists. *)
Theorem cleanup_success_means (fuel : nat) (p : Proc W) :
  let r := clearAllImages cfg fuel p in
  result r = Some true ->
  (healthy p = true
   /\ any_failed (trace r) = false
   /\ exists w, client_ListImages w = (Ok [], world (final r)))
  \/ (under_docker cfg = true
      /\ exists pre id,
           trace r = pre ++ [EvCall StClearImages (RemoveImage id) false]).
Proof.
  cbv zeta. unfold clearAllImages, bind, ret.
  destruct (clearAllImages_loop cfg fuel ∅ p) as [[r p'] evs] eqn:E.
  cbn [result final trace fst snd]. rewrite app_nil_r.
  apply clearAllImages_loop_Cleanup in E as HC.
  destruct r as [[b skip']|]; cbn; intros [=]; subst b.
  destruct (Cleanup_true _ _ _ _ _ _ _ HC eq_refl _ eq_refl)
    as [(Hh & -> & Hf & Hw) | (Hu & pre & id & -> & _)].
  - left.
    destruct (Cleanup_healthy _ _ _ _ _ _ _ HC) as (Hh' & _).
    rewrite Hh in Hh'. symmetry in Hh'. apply andb_true_iff in Hh' as (Hp & _).
    by repeat split.
  - right. split; [assumption|]. eauto.
Qed.

(** ** The probe loop *)

(** How the probe loop leaves the flags.  When it has returned, [healthy] is
    false and [status] is true: [/health] answers 503 and [/status] answers
    200.  While it runs, [healthy] is what it was when the loop started, and
    between two iterations [status] is false exactly when the next sleep is
    the one of 30 seconds. *)
Theorem loop_end_state (n fuel : nat) (firstLoop : bool) (duration : Z)
    (p : Proc W) :
  let r := mainLoop_from cfg n fuel firstLoop duration p in
  match result r with
  | Returned =>
      healthy (final r) = false /\ status (final r) = true
      /\ healthHandler (final r) = (503%Z, "false")
      /\ statusHandler (final r) = (200%Z, "true")
  | Running f d =>
      healthy (final r) = healthy p
      /\ (n = 0
          \/ (f = false
              /\ ((d = (30 * Second)%Z /\ status (final r) = false)
                  \/ (d = (2 * Minute)%Z /\ status (final r) = true))))
  | Stuck => healthy (final r) = healthy p /\ status (final r) = true
  end.
Proof.
  cbv zeta.
  destruct (mainLoop_from cfg n fuel firstLoop duration p) as [[st p'] evs] eqn:E.
  cbn [result final fst snd]. apply mainLoop_from_end in E.
  destruct st as [|f d|]; [|exact E|exact E].
  destruct E as (Hh & Hs). unfold healthHandler, statusHandler.
  rewrite Hh, Hs. by repeat split.
Qed.

(** The metrics follow the pulls and the pushes of the loop, from any state
    and for any number of iterations: the failure counter grows by the number
    of pulls and pushes that failed, the success counter and the push summary
    by the number of pushes that succeeded, the pull summary by the number of
    pulls that succeeded.  No other failure is counted. *)
Theorem metrics_count_the_outcomes (n fuel : nat) (firstLoop : bool)
    (duration : Z) (p : Proc W) :
  let r := mainLoop_from cfg n fuel firstLoop duration p in
  promFailureMetric (final r)
  = promFailureMetric p + count (is_pull false) (trace r)
    + count (is_push false) (trace r)
  /\ promSuccessMetric (final r)
     = promSuccessMetric p + count (is_push true) (trace r)
  /\ length (promPullMetric (final r))
     = length (promPullMetric p) + count (is_pull true) (trace r)
  /\ length (promPushMetric (final r))
     = length (promPushMetric p) + count (is_push true) (trace r).
Proof.
  cbv zeta.
  destruct (mainLoop_from cfg n fuel firstLoop duration p) as [[st p'] evs] eqn:E.
  cbn [final trace fst snd]. by apply mainLoop_from_tally in E.
Qed.

(** The loop sleeps between two tests and nowhere else: the first test
    starts without a sleep, a run has one test more than it has sleeps, and
    every sleep lasts 30 seconds or 2 minutes. *)
Theorem sleep_schedule (n fuel : nat) (p : Proc W) :
  let r := mainLoop cfg n fuel p in
  Forall (fun d => d = (30 * Second)%Z \/ d = (2 * Minute)%Z)
    (sleeps (trace r))
  /\ count is_test_start (trace r) <= n
  /\ (n = 0
      \/ (count is_test_start (trace r) = S (length (sleeps (trace r)))
          /\ exists body, trace r = EvStatus true :: body)).
Proof.
  cbv zeta. unfold mainLoop.
  destruct (mainLoop_from cfg n fuel true (2 * Minute) p) as [[st p'] evs] eqn:E.
  cbn [trace snd].
  destruct (mainLoop_from_sleeps _ _ _ _ _ _ _ _ _ E) as (Hall & Hle & Hn).
  split; [|split; [assumption|]].
  - eapply Forall_impl; [exact Hall|]. cbn. tauto.
  - destruct Hn as [Hn|Hn]; [by left|]. right. split; [lia|].
    destruct n as [|n]; cbn [mainLoop_from] in E.
    + by run_prim E.
    + run_bind E. apply iteration_shape in R as [body ->]. cbn. eauto.
Qed.

(** In the constrained mode the containers are left alone: no run of the
    loop lists or removes a container.  In general an iteration lists them
    exactly when the mode is not the constrained one and it could connect. *)
Theorem containers_untouched_in_constrained_mode (n fuel : nat)
    (firstLoop : bool) (duration : Z) (p : Proc W) :
  (let r := iteration cfg fuel firstLoop duration p in
   invoked StClearContainers (trace r)
   = negb (under_docker cfg) && negb (failed StConnect (trace r)))
  /\ (let r := mainLoop_from cfg n fuel firstLoop duration p in
      under_docker cfg = true ->
      invoked StClearContainers (trace r) = false
      /\ container_removals (trace r) = []).
Proof.
  split; cbv zeta.
  - destruct (iteration cfg fuel firstLoop duration p) as [[c p'] evs] eqn:E.
    cbn [trace snd]. by apply iteration_containers in E.
  - destruct (mainLoop_from cfg n fuel firstLoop duration p) as [[st p'] evs] eqn:E.
    cbn [trace snd]. intros Hu.
    pose proof (mainLoop_from_containers _ _ _ _ _ _ _ _ _ E Hu) as Hinv.
    split; [assumption|]. by apply not_invoked_no_removals.
Qed.

(** An iteration attempts the push only when [healthy] was true at its
    start, the pull of that iteration succeeded, the history was read and the
    new layer was created, and no fatal failure occurred. *)
Theorem push_needs_clean_pipeline (fuel : nat) (firstLoop : bool)
    (duration : Z) (p : Proc W) :
  let r := iteration cfg fuel firstLoop duration p in
  invoked StPush (trace r) = true ->
  healthy p = true
  /\ fatal_failure (under_docker cfg) (trace r) = false
  /\ invoked StPull (trace r) = true /\ failed StPull (trace r) = false
  /\ invoked StDeleteTopLayer (trace r) = true
  /\ invoked StCreateTagLayer (trace r) = true.
Proof.
  cbv zeta.
  destruct (iteration cfg fuel firstLoop duration p) as [[c p'] evs] eqn:E.
  cbn [trace snd]. intros Hi.
  by apply (iteration_pipeline _ _ _ _ _ _ _ _ E).
Qed.

(** An iteration entered with [healthy] true in which no fatal failure
    occurs and the pull and the push succeed runs the whole pipeline, image
    cleanup having stopped: it pushes, ends with both flags true, records
    one success and one observation in each summary, and the next sleep is
    the one of 2 minutes.  A removal refused in the constrained mode does not
    prevent this. *)
Theorem healthy_iteration_succeeds (fuel : nat) (firstLoop : bool)
    (duration : Z) (p : Proc W) :
  let r := iteration cfg fuel firstLoop duration p in
  healthy p = true ->
  fatal_failure (under_docker cfg) (trace r) = false ->
  failed StPull (trace r) = false ->
  failed StPush (trace r) = false ->
  result r <> Diverge ->
  result r = Continue (2 * Minute)
  /\ invoked StPush (trace r) = true
  /\ status (final r) = true
  /\ healthy (final r) = true
  /\ promSuccessMetric (final r) = S (promSuccessMetric p)
  /\ promFailureMetric (final r) = promFailureMetric p
  /\ (exists d, promPullMetric (final r) = promPullMetric p ++ [d])
  /\ (exists d, promPushMetric (final r) = promPushMetric p ++ [d]).
Proof.
  cbv zeta.
  destruct (iteration cfg fuel firstLoop duration p) as [[c p'] evs] eqn:E.
  cbn [result final trace fst snd]. intros Hh Hf Hpull Hpush Hc.
  destruct (iteration_clean _ _ _ _ _ _ _ _ E Hh Hf Hpull Hpush) as [->|Hok];
    [by destruct Hc | exact Hok].
Qed.

(** In every iteration whose push fails, the iteration ends with [status]
    false and [healthy] true, the failure counter one higher, the pull
    observed but not the push, no success recorded, and the loop goes on
    after a sleep of 30 seconds. *)
Theorem push_failure_ends_iteration (fuel : nat) (firstLoop : bool)
    (duration : Z) (p : Proc W) :
  let r := iteration cfg fuel firstLoop duration p in
  failed StPush (trace r) = true ->
  result r = Continue (30 * Second)
  /\ status (final r) = false
  /\ healthy (final r) = true
  /\ promFailureMetric (final r) = S (promFailureMetric p)
  /\ promSuccessMetric (final r) = promSuccessMetric p
  /\ (exists d, promPullMetric (final r) = promPullMetric p ++ [d])
  /\ promPushMetric (final r) = promPushMetric p.
Proof.
  cbv zeta.
  destruct (iteration cfg fuel firstLoop duration p) as [[c p'] evs] eqn:E.
  cbn [result final trace fst snd]. intros Hf.
  by apply (iteration_push_failed _ _ _ _ _ _ _ _ E).
Qed.

End Further.

(** ** The claims on the scripted runtime *)

Lemma filter_out_shrinks (id : string) (l : list string) :
  In id l ->
  length (List.filter (fun i => negb (String.eqb i id)) l) < length l.
Proof.
  induction l as [|x l IH]; cbn; [tauto|].
  intros [-> | Hin].
  - rewrite String.eqb_refl. cbn.
    pose proof (List.filter_length_le (fun i => negb (String.eqb i id)) l). lia.
  - specialize (IH Hin). destruct (negb (String.eqb x id)); cbn; lia.
Qed.

Lemma sim_list_keeps (w : Sim) r w' :
  client_ListImages w = (r, w') -> sim_size w' <= sim_size w.
Proof.
  cbn. unfold sim_ListImages. destruct (sim_fails ListImages w); by intros [= <- <-].
Qed.

Lemma sim_remove_shrinks id (w : Sim) u w' :
  client_RemoveImage id w = (Ok u, w') -> sim_size w' < sim_size w.
Proof.
  cbn. unfold sim_RemoveImage.
  destruct (sim_fails (RemoveImage id) w); [discriminate|].
  destruct (bool_decide (id ∈ sim_stuck w)); [discriminate|].
  destruct (bool_decide (id ∈ sim_images w)) eqn:Hin; cbn; [|discriminate].
  intros [= <- <-]. unfold sim_size. cbn.
  apply filter_out_shrinks. apply list_elem_of_In.
  by apply bool_decide_eq_true in Hin.
Qed.

(** The image enumeration is fatal in the constrained mode too: entered with
    [healthy] true, which no run from the process start is, an iteration
    whose enumeration fails clears [healthy] and makes the loop return. *)
Lemma unlisted_failure_clears_healthy :
  let p := mkProc (sim_world [] [] [] [ListImages]) true false 0 0 [] [] in
  let r := iteration constrained 1 true (2 * Minute) p in
  healthy p = true
  /\ listed_fatal_failure (under_docker constrained) (trace r) = false
  /\ healthy (final r) = false
  /\ result r = Return.
Proof. vm_compute. repeat split. Qed.

(** C3 at its failing input: from the process start, in the constrained
    mode, with a runtime that holds no image and on which every call
    succeeds.  No fatal step fails, indeed no call does; yet [healthy] is
    false before, during and after the first iteration, [/health] answers
    503, and the loop returns after listing the images, so that no second
    iteration begins. *)
Theorem healthy_is_false_though_nothing_failed :
  let r := mainLoop constrained 2 10
             (start (sim_world [] [] tagged_history [])) in
  healthy (start (sim_world [] [] tagged_history [])) = false
  /\ any_failed (trace r) = false
  /\ listed_fatal_failure (under_docker constrained) (trace r) = false
  /\ trace r
     = [ EvStatus true; EvCall StConnect UrlParse true;
         EvCall StConnect NewClient true;
         EvCall StClearImages ListImages true ]
  /\ Forall (eq false) (healthy_history false (trace r))
  /\ healthy (final r) = false
  /\ result r = Returned
  /\ healthHandler (final r) = (503%Z, "false").
Proof. vm_compute. repeat split; repeat constructor. Qed.


(** C6 at its failing input: from the process start, outside the constrained
    mode, with a runtime on which every call succeeds, the first iteration
    makes the loop return after listing the containers: nothing is pulled or
    pushed, no success is recorded, and [healthy] is false. *)
Theorem all_calls_succeed_yet_loop_returns :
  let r := mainLoop unconstrained 1 10
             (start (sim_world [] [] tagged_history [])) in
  any_failed (trace r) = false
  /\ result r = Returned
  /\ trace r
     = [ EvStatus true; EvCall StConnect UrlParse true;
         EvCall StConnect NewClient true;
         EvCall StClearContainers ListContainers true ]
  /\ healthy (final r) = false
  /\ status (final r) = true
  /\ promSuccessMetric (final r) = 0
  /\ promPullMetric (final r) = []
  /\ promPushMetric (final r) = [].
Proof. vm_compute. repeat split. Qed.

(** C7 at its failing input: from the process start, in the constrained
    mode, one image cannot be removed, the pull succeeds and no layer of the
    history carries the tag.  The deletion step issues no removal and none of
    its calls fails, yet the loop returns and no layer is created. *)
Theorem untagged_history_stops_loop :
  let r := mainLoop constrained 1 10
             (start (sim_world ["A"] ["A"] untagged_history [])) in
  result r = Returned
  /\ trace r
     = [ EvStatus true; EvCall StConnect UrlParse true;
         EvCall StConnect NewClient true;
         EvCall StClearImages ListImages true;
         EvCall StClearImages (RemoveImage "A") false;
         EvCall StPull PullImage true;
         EvCall StDeleteTopLayer ImageHistoryOf true ]
  /\ failed StDeleteTopLayer (trace r) = false
  /\ invoked StCreateTagLayer (trace r) = false
  /\ healthy_written (trace r) = false.
Proof. vm_compute. repeat split. Qed.

(** C8 at its failing input: in the constrained mode the runtime lists the
    images A and B, and A cannot be removed.  Cleanup reports success after
    one pass; B is still listed, is not in the skip map, and no removal of it
    was attempted. *)
Theorem cleanup_returns_with_removable_image :
  let r := clearAllImages_loop constrained 10 ∅
             (start (sim_world ["A"; "B"] ["A"] [] [])) in
  result (clearAllImages constrained 10
            (start (sim_world ["A"; "B"] ["A"] [] []))) = Some true
  /\ match result r with
     | Some (b, skipImages) =>
         b = true /\ toSkip skipImages "A" = true
         /\ toSkip skipImages "B" = false
     | None => False
     end
  /\ passes (trace r) = 1
  /\ attempts_on "B" (trace r) = 0
  /\ fst (client_ListImages (world (final r)))
     = Ok [ {| ImageID := "A" |}; {| ImageID := "B" |} ].
Proof. vm_compute. repeat split. Qed.

(** C9 on the scripted runtime: one image is removed, the other is refused,
    and cleanup stops after two passes. *)
Lemma cleanup_terminates_witness :
  let r := clearAllImages constrained 3
             (start (sim_world ["B"; "A"] ["A"] [] [])) in
  (exists b, result r = Some b) /\ passes (trace r) <= 3.
Proof.
  destruct (clearAllImages_terminates constrained sim_size sim_list_keeps
              sim_remove_shrinks 3 (start (sim_world ["B"; "A"] ["A"] [] [])))
    as (_ & Hstops).
  destruct Hstops as (Hsome & Hpasses & _); [vm_compute; lia|].
  split; [exact Hsome | exact Hpasses].
Defined.

(** C10, the claim as stated fails: in the constrained mode the removal of
    image A is refused in the first iteration, the pull fails, and the second
    iteration attempts the removal of A again. *)
Lemma refused_image_is_attempted_again :
  let r := mainLoop constrained 2 10
             (start (sim_world ["A"] ["A"] [] [PullImage])) in
  under_docker constrained = true
  /\ result r = Running false (30 * Second)
  /\ attempts_on "A" (trace r) = 2
  /\ trace r
     = [ EvStatus true; EvCall StConnect UrlParse true;
         EvCall StConnect NewClient true;
         EvCall StClearImages ListImages true;
         EvCall StClearImages (RemoveImage "A") false;
         EvCall StPull PullImage false; EvStatus false;
         EvSleep 30000000000; EvStatus true;
         EvCall StConnect UrlParse true; EvCall StConnect NewClient true;
         EvCall StClearImages ListImages true;
         EvCall StClearImages (RemoveImage "A") false;
         EvCall StPull PullImage false; EvStatus false ].
Proof. vm_compute. repeat split. Qed.

(** C10 as amended, on the scripted runtime: B is removed, A is refused. *)
Lemma removal_failure_witness :
  let r := clearAllImages_loop constrained 3 ∅
             (start (sim_world ["B"; "A"] ["A"] [] [])) in
  failed_remove (trace r) = true
  /\ healthy (final r) = false
  /\ (exists skip', result r = Some (true, skip') /\ toSkip skip' "A" = true)
  /\ invoked StPull
       (trace (iteration constrained 3 true (2 * Minute)
                 (start (sim_world ["B"; "A"] ["A"] [] []))))
     = true.
Proof.
  cbv zeta.
  assert (H : failed_remove
                (trace (clearAllImages_loop constrained 3 ∅
                          (start (sim_world ["B"; "A"] ["A"] [] []))))
              = true) by (vm_compute; reflexivity).
  assert (Hi : failed_remove
                 (trace (iteration constrained 3 true (2 * Minute)
                           (start (sim_world ["B"; "A"] ["A"] [] []))))
               = true) by (vm_compute; reflexivity).
  assert (Ht : trace (clearAllImages_loop constrained 3 ∅
                        (start (sim_world ["B"; "A"] ["A"] [] [])))
               = [ EvCall StClearImages ListImages true;
                   EvCall StClearImages (RemoveImage "B") true;
                   EvCall StClearImages ListImages true ]
                 ++ EvCall StClearImages (RemoveImage "A") false :: [])
    by (vm_compute; reflexivity).
  destruct (removal_failure_policy constrained 3 true (2 * Minute) ∅
              (start (sim_world ["B"; "A"] ["A"] [] [])) H)
    as (Hrun & _ & Hiter).
  change (under_docker constrained) with true in Hrun, Hiter.
  destruct Hrun as (Hh & _ & Hskip).
  destruct (Hskip _ _ _ Ht) as (_ & Hin).
  split; [exact H|]. split; [exact Hh|]. split; [exact Hin | exact (Hiter Hi)].
Defined.

(** The deletion step on the scripted runtime, with an untagged history. *)
Lemma deleteTopLayer_without_tag_witness :
  let r := deleteTopLayer constrained
             (start (sim_world [] [] untagged_history [])) in
  result r = false
  /\ trace r = [EvCall StDeleteTopLayer ImageHistoryOf true].
Proof.
  destruct (deleteTopLayer_without_tag constrained
              (start (sim_world [] [] untagged_history []))
              untagged_history (sim_world [] [] untagged_history []))
    as (Hr & Ht & _).
  - reflexivity.
  - repeat constructor.
  - split; [exact Hr | exact Ht].
Defined.

(** The deletion step on the scripted runtime, when the tagged layer is not
    among the runtime's images and its removal fails. *)
Lemma deleteTopLayer_failure_witness :
  let r := deleteTopLayer constrained
             (start (sim_world [] [] tagged_history [])) in
  failed StDeleteTopLayer (trace r) = true /\ result r = false.
Proof.
  cbv zeta.
  assert (H : failed StDeleteTopLayer
                (trace (deleteTopLayer constrained
                          (start (sim_world [] [] tagged_history []))))
              = true) by (vm_compute; reflexivity).
  destruct (deleteTopLayer_failure_is_fatal constrained 1 true (2 * Minute)
              (start (sim_world [] [] tagged_history []))) as (Hstep & _).
  split; [exact H | exact (proj1 (Hstep H))].
Defined.

(** A whole iteration on the scripted runtime, entered with [healthy] true:
    two images are cleaned up, the test image is pulled, its top layer is
    replaced and pushed. *)
Lemma push_success_witness :
  let r := iteration unconstrained 10 true (2 * Minute)
             (mkProc (sim_world ["A"; "B"] [] tagged_history []) true false
                0 0 [] []) in
  invoked StPush (trace r) = true
  /\ failed StPush (trace r) = false
  /\ result r = Continue (2 * Minute)
  /\ promSuccessMetric (final r) = 1.
Proof.
  cbv zeta.
  assert (Hi : invoked StPush
                 (trace (iteration unconstrained 10 true (2 * Minute)
                           (mkProc (sim_world ["A"; "B"] [] tagged_history [])
                              true false 0 0 [] [])))
               = true) by (vm_compute; reflexivity).
  assert (Hf : failed StPush
                 (trace (iteration unconstrained 10 true (2 * Minute)
                           (mkProc (sim_world ["A"; "B"] [] tagged_history [])
                              true false 0 0 [] [])))
               = false) by (vm_compute; reflexivity).
  destruct (push_success_iteration unconstrained 10 true (2 * Minute)
              (mkProc (sim_world ["A"; "B"] [] tagged_history []) true false
                 0 0 [] []) Hi Hf)
    as (Hr & _ & _ & Hs & _).
  repeat split; assumption.
Defined.

(** ** The further properties on the scripted runtime *)

(** Image cleanup outside the constrained mode, entered with [healthy] true:
    both images are removed and the third enumeration is empty. *)
Lemma cleanup_success_witness :
  let r := clearAllImages unconstrained 10
             (mkProc (sim_world ["A"; "B"] [] [] []) true false 0 0 [] []) in
  result r = Some true
  /\ any_failed (trace r) = false
  /\ passes (trace r) = 3.
Proof.
  cbv zeta.
  assert (H : result
                (clearAllImages unconstrained 10
                   (mkProc (sim_world ["A"; "B"] [] [] []) true false 0 0 [] []))
              = Some true) by (vm_compute; reflexivity).
  destruct (cleanup_success_means unconstrained 10
              (mkProc (sim_world ["A"; "B"] [] [] []) true false 0 0 [] []) H)
    as [(_ & Hf & _) | (Hu & _)].
  - split; [exact H|]. split; [exact Hf|]. vm_compute. reflexivity.
  - vm_compute in Hu. discriminate Hu.
Defined.

(** An iteration that reaches the push, on the scripted runtime. *)
Lemma push_needs_clean_pipeline_witness :
  let p := mkProc (sim_world ["A"; "B"] [] tagged_history []) true false
             0 0 [] [] in
  let r := iteration unconstrained 10 true (2 * Minute) p in
  invoked StPush (trace r) = true
  /\ healthy p = true
  /\ failed StPull (trace r) = false.
Proof.
  cbv zeta.
  assert (Hi : invoked StPush
                 (trace (iteration unconstrained 10 true (2 * Minute)
                           (mkProc (sim_world ["A"; "B"] [] tagged_history [])
                              true false 0 0 [] [])))
               = true) by (vm_compute; reflexivity).
  destruct (push_needs_clean_pipeline unconstrained 10 true (2 * Minute)
              (mkProc (sim_world ["A"; "B"] [] tagged_history []) true false
                 0 0 [] []) Hi)
    as (Hh & _ & _ & Hp & _).
  split; [exact Hi|]. split; [exact Hh | exact Hp].
Defined.

(** A whole iteration on the scripted runtime, in the constrained mode and
    entered with [healthy] true: the removal of image A is refused, and the
    test image is pulled, changed and pushed all the same. *)
Lemma healthy_iteration_witness :
  let p := mkProc (sim_world ["A"] ["A"] tagged_history []) true false
             0 0 [] [] in
  let r := iteration constrained 10 true (2 * Minute) p in
  failed_remove (trace r) = true
  /\ result r = Continue (2 * Minute)
  /\ promSuccessMetric (final r) = 1.
Proof.
  cbv zeta.
  assert (Hrm : failed_remove
                  (trace (iteration constrained 10 true (2 * Minute)
                            (mkProc (sim_world ["A"] ["A"] tagged_history [])
                               true false 0 0 [] [])))
                = true) by (vm_compute; reflexivity).
  assert (Hf : fatal_failure (under_docker constrained)
                 (trace (iteration constrained 10 true (2 * Minute)
                           (mkProc (sim_world ["A"] ["A"] tagged_history [])
                              true false 0 0 [] [])))
               = false) by (vm_compute; reflexivity).
  assert (Hpull : failed StPull
                    (trace (iteration constrained 10 true (2 * Minute)
                              (mkProc (sim_world ["A"] ["A"] tagged_history [])
                                 true false 0 0 [] [])))
                  = false) by (vm_compute; reflexivity).
  assert (Hpush : failed StPush
                    (trace (iteration constrained 10 true (2 * Minute)
                              (mkProc (sim_world ["A"] ["A"] tagged_history [])
                                 true false 0 0 [] [])))
                  = false) by (vm_compute; reflexivity).
  assert (Hc : result (iteration constrained 10 true (2 * Minute)
                         (mkProc (sim_world ["A"] ["A"] tagged_history [])
                            true false 0 0 [] []))
               <> Diverge) by (vm_compute; discriminate).
  destruct (healthy_iteration_succeeds constrained 10 true (2 * Minute)
              (mkProc (sim_world ["A"] ["A"] tagged_history []) true false
                 0 0 [] []) eq_refl Hf Hpull Hpush Hc)
    as (Hr & _ & _ & _ & Hs & _).
  split; [exact Hrm|]. split; [exact Hr | exact Hs].
Defined.

(** An iteration whose push fails, on the scripted runtime. *)
Lemma push_failure_witness :
  let p := mkProc (sim_world [] [] tagged_history [PushImage]) true false
             0 0 [] [] in
  let r := iteration unconstrained 10 true (2 * Minute) p in
  failed StPush (trace r) = true
  /\ result r = Continue (30 * Second)
  /\ status (final r) = false
  /\ promFailureMetric (final r) = 1.
Proof.
  cbv zeta.
  assert (Hf : failed StPush
                 (trace (iteration unconstrained 10 true (2 * Minute)
                           (mkProc (sim_world [] [] tagged_history [PushImage])
                              true false 0 0 [] [])))
               = true) by (vm_compute; reflexivity).
  destruct (push_failure_ends_iteration unconstrained 10 true (2 * Minute)
              (mkProc (sim_world [] [] tagged_history [PushImage]) true false
                 0 0 [] []) Hf)
    as (Hr & Hs & _ & Hc & _).
  repeat split; assumption.
Defined.

(** With the password and the base layer missing, the password is the one
    reported. *)
Lemma main_missing_flag_witness :
  main startup_ok no_password ":8000" "info"
  = [log_SetLevel "info"; log_Fatal "Missing password flag"].
Proof.
  exact (main_reports_first_missing_flag startup_ok no_password ":8000" "info"
           eq_refl eq_refl).
Defined.
